(** * GeoViz Pro: the volumetric pipeline of [app.py]

    A shallow embedding of the numerical core of the script [src/app.py]
    (duplicate averaging, grid construction, the interpolation call with
    its fallback, the volumetric sums, the fluid classification and the
    control flow of the page around them), and the properties of it that
    the specification states.

    Numbers.  The script computes with IEEE doubles.  The embedding keeps
    the one float feature the script's logic depends on, NaN, and takes
    every other number as an exact rational: a [float] is [option Q],
    [None] being NaN.  Rounding, overflow and infinities of doubles are
    outside the model; equalities between computed numbers are stated with
    [==].  A column of the frame whose entries are all integers is an
    [int64] column in pandas, and the difference of two of its scalars
    wraps around at 64 bits: the embedding keeps the dtype of each column
    and that wrap-around. *)

From Stdlib Require Import String ZArith QArith Qminmax Bool Lia List.
From Stdlib Require Import Qround Sorted Permutation Lqa.
Import ListNotations.

Open Scope Q_scope.

(** ** Floats with NaN *)

Definition float := option Q.

Definition NaN : float := None.

Definition num (q : Q) : float := Some q.

Definition Qltb (x y : Q) : bool :=
  match x ?= y with Lt => true | _ => false end.

Definition Qleb (x y : Q) : bool :=
  match x ?= y with Gt => false | _ => true end.

(** Arithmetic propagates NaN. *)
Definition fsub (a b : float) : float :=
  match a, b with
  | Some x, Some y => Some (x - y)
  | _, _ => None
  end.

Definition fmul (a b : float) : float :=
  match a, b with
  | Some x, Some y => Some (x * y)
  | _, _ => None
  end.

(** Division by a non-zero constant (the script divides by [nx - 1 = 99]
    only). *)
Definition fdiv (a : float) (d : Q) : float :=
  match a with
  | Some x => Some (x / d)
  | None => None
  end.

(** Every ordered comparison with NaN is false. *)
Definition fltb (a b : float) : bool :=
  match a, b with
  | Some x, Some y => Qltb x y
  | _, _ => false
  end.

(** Python's builtin [max(0, v)]: the first argument is kept unless the
    second compares greater. *)
Definition py_max0 (v : float) : float :=
  if fltb (num 0) v then v else num 0.

(** ** The data frame *)

(** One entry of [st.session_state['data_points']]: the dictionary
    [{'X': .., 'Y': .., 'Z': ..}]. *)
Record row := mkRow { col_X : Q; col_Y : Q; col_Z : Q }.

Definition dataframe := list row.

(** [df['X'].min()] and [df['X'].max()]; pandas returns NaN on an empty
    column. *)
Definition series_min (s : list Q) : float :=
  match s with
  | [] => NaN
  | x :: xs => num (fold_left Qmin xs x)
  end.

Definition series_max (s : list Q) : float :=
  match s with
  | [] => NaN
  | x :: xs => num (fold_left Qmax xs x)
  end.

(** *** Column types *)

(** The dtype pandas gives a column of the frame: [int64] when every entry
    of the column is an integer (the demo data, an integer column of an
    uploaded file), [float64] otherwise (the input form enters floats). *)
Inductive dtype := int64 | float64.

Record dtypes := mkDtypes {
  dtype_X : dtype;
  dtype_Y : dtype;
  dtype_Z : dtype
}.

(** Two's-complement wrap-around to a signed 64-bit integer. *)
Definition wrap64 (z : Z) : Z := ((z + 2 ^ 63) mod 2 ^ 64 - 2 ^ 63)%Z.

(** [a - b] on two scalars taken from one column: [numpy.float64]
    subtraction, or [numpy.int64] subtraction, which wraps around. *)
Definition scalar_sub (dt : dtype) (a b : float) : float :=
  match dt with
  | float64 => fsub a b
  | int64 =>
      match a, b with
      | Some x, Some y => Some (inject_Z (wrap64 (Qfloor x - Qfloor y)))
      | _, _ => None
      end
  end.

(** [s.max() - s.min()] as the script writes it for X (line 158), Y
    (line 159) and Z (lines 73, 76 and 202). *)
Definition extent (dt : dtype) (s : list Q) : float :=
  scalar_sub dt (series_max s) (series_min s).

(** *** [df.groupby(['X', 'Y'], as_index=False)['Z'].mean()] *)

Definition key := (Q * Q)%type.

Definition key_compare (a b : key) : comparison :=
  match fst a ?= fst b with
  | Eq => snd a ?= snd b
  | c => c
  end.

(** A group is its key, the running sum of its depths and its size.  The
    groups are kept in increasing key order, as [groupby] sorts them. *)
Definition group := (key * (Q * positive))%type.

Fixpoint group_add (k : key) (z : Q) (gs : list group) : list group :=
  match gs with
  | [] => [(k, (z, 1%positive))]
  | (k', (s, n)) :: rest =>
      match key_compare k k' with
      | Lt => (k, (z, 1%positive)) :: gs
      | Eq => (k', (s + z, Pos.succ n)) :: rest
      | Gt => (k', (s, n)) :: group_add k z rest
      end
  end.

Definition groups (df : dataframe) : list group :=
  fold_left (fun gs r => group_add (col_X r, col_Y r) (col_Z r) gs) df [].

Definition group_mean (g : group) : row :=
  let '(k, (s, n)) := g in
  mkRow (fst k) (snd k) (s / inject_Z (Zpos n)).

Definition groupby_mean (df : dataframe) : dataframe :=
  map group_mean (groups df).

(** ** The grid *)

Definition grid (A : Type) := list (list A).

(** [np.linspace(start, stop, num)]. *)
Definition linspace (start stop : Q) (n : nat) : list Q :=
  let step := (stop - start) / inject_Z (Z.of_nat (n - 1)) in
  map (fun i => start + inject_Z (Z.of_nat i) * step) (seq 0 n).

Definition flinspace (start stop : float) (n : nat) : list float :=
  match start, stop with
  | Some a, Some b => map num (linspace a b n)
  | _, _ => repeat NaN n
  end.

(** [np.meshgrid(xs, ys)]: one row per [y], one column per [x]. *)
Definition meshgrid {A : Type} (xs ys : list A) : grid A * grid A :=
  (map (fun _ => xs) ys, map (fun y => map (fun _ => y) xs) ys).

Definition node_count {A : Type} (g : grid A) : nat :=
  length (concat g).

(** ** Volumetrics (lines 153-174) *)

Definition nx : nat := 100.
Definition ny : nat := 100.

Definition dx (dt : dtypes) (df : dataframe) : float :=
  fdiv (extent (dtype_X dt) (map col_X df)) (inject_Z (Z.of_nat (nx - 1))).

Definition dy (dt : dtypes) (df : dataframe) : float :=
  fdiv (extent (dtype_Y dt) (map col_Y df)) (inject_Z (Z.of_nat (ny - 1))).

Definition cell_area (dt : dtypes) (df : dataframe) : float :=
  fmul (dx dt df) (dy dt df).

(** [t = contact - grid_z; t[t < 0] = 0]: the subtraction keeps NaN, and
    the mask [t < 0] is false on NaN, so NaN nodes stay NaN. *)
Definition clamp_negative (t : float) : float :=
  if fltb t (num 0) then num 0 else t.

Definition thickness (contact : Q) (z : float) : float :=
  clamp_negative (fsub (num contact) z).

Definition thick_above (contact : Q) (grid_z : grid float) : grid float :=
  map (map (thickness contact)) grid_z.

(** [np.nansum]: the sum of all entries of the array, NaN counted as
    zero. *)
Definition nan_to_zero (v : float) : Q :=
  match v with
  | Some q => q
  | None => 0
  end.

Definition nansum_flat (l : list float) : Q :=
  fold_right (fun v acc => nan_to_zero v + acc) 0 l.

Definition nansum (a : grid float) : Q :=
  nansum_flat (concat a).

Definition thick_above_woc (woc_input : Q) (grid_z : grid float) : grid float :=
  thick_above woc_input grid_z.

Definition thick_above_goc (goc_input : Q) (grid_z : grid float) : grid float :=
  thick_above goc_input grid_z.

Definition vol_total_res (area : float) (grid_z : grid float) (woc_input : Q)
  : float :=
  fmul (num (nansum (thick_above_woc woc_input grid_z))) area.

Definition vol_gas_cap (area : float) (grid_z : grid float) (goc_input : Q)
  : float :=
  fmul (num (nansum (thick_above_goc goc_input grid_z))) area.

Definition vol_oil_zone (area : float) (grid_z : grid float)
           (goc_input woc_input : Q) : float :=
  py_max0 (fsub (vol_total_res area grid_z woc_input)
                (vol_gas_cap area grid_z goc_input)).

(** ** Fluid classification (lines 207-214 and 278-285) *)

Inductive fluid := Gas_Cap | Oil_Zone | Aquifer | Unknown.

(** [np.select(condlist, choicelist, default)] at one element: the choice
    of the first condition that holds, the default when none does. *)
Fixpoint np_select {A : Type} (condlist : list bool) (choicelist : list A)
         (default : A) : A :=
  match condlist, choicelist with
  | c :: cs, v :: vs => if c then v else np_select cs vs default
  | _, _ => default
  end.

Definition conditions (goc_input woc_input z : Q) : list bool :=
  [ Qltb z goc_input;
    Qleb goc_input z && Qleb z woc_input;
    Qltb woc_input z ].

Definition choices : list fluid := [Gas_Cap; Oil_Zone; Aquifer].

Definition fluid_of (goc_input woc_input z : Q) : fluid :=
  np_select (conditions goc_input woc_input z) choices Unknown.

Definition classify (df : dataframe) (goc_input woc_input : Q) : list fluid :=
  map (fun r => fluid_of goc_input woc_input (col_Z r)) df.

(** ** The page as a program *)

Inductive method := cubic | linear.

Inductive exn :=
| NameError (name : string)
| InterpolationError (msg : string)
| ValueError (property : string).

(** What a run of the script does that can be seen from outside it: the
    widgets it draws and the calls it makes to [scipy]'s [griddata]. *)
Inductive effect :=
| st_warning_goc_woc
| st_info_no_data
| griddata_call (m : method) (points : list Q * list Q) (values : list Q)
| st_metric_volumes (gas oil total : float)
| st_plotly_chart_2d (z : grid float) (labels : list fluid)
| st_plotly_chart_3d (z : grid float)
| st_dataframe (df : dataframe) (labels : option (list fluid))
| st_warning_not_enough
| st_download_csv (rows : list (Q * Q * Q))
| st_download_txt (gas oil total : float).

(** A run is the effects so far and either the exception that stopped it
    or its value. *)
Definition script (A : Type) := (list effect * (exn + A))%type.

Definition ret {A : Type} (a : A) : script A := ([], inr a).

Definition bind {A B : Type} (m : script A) (f : A -> script B) : script B :=
  match m with
  | (t, inl e) => (t, inl e)
  | (t, inr a) => let '(t', r) := f a in (t ++ t', r)
  end.

Definition emit (e : effect) : script unit := ([e], inr tt).

Definition raise {A : Type} (e : exn) : script A := ([], inl e).

(** [try: body  except: handler] with a bare [except]. *)
Definition try_except {A : Type} (body handler : script A) : script A :=
  match body with
  | (t, inl _) => let '(t', r) := handler in (t ++ t', r)
  | (t, inr a) => (t, inr a)
  end.

(** Reading a local variable: a name that no executed statement has
    assigned raises [NameError]. *)
Definition load {A : Type} (name : string) (v : option A) : script A :=
  match v with
  | Some a => ret a
  | None => raise (NameError name)
  end.

Definition when (c : bool) (m : script unit) : script unit :=
  if c then m else ret tt.

(** [go.Contour(..., contours=dict(start=.., end=.., size=..))] (lines 198
    and 269): plotly validates the properties it is given and refuses a
    negative contour size with [ValueError]. *)
Definition go_Contour (size : float) : script unit :=
  if fltb size (num 0) then raise (ValueError "contours.size") else ret tt.

(** Lines 202 and 273: [size=(max_z - min_z)/10]. *)
Definition contour_size (dt : dtypes) (df : dataframe) : float :=
  fdiv (extent (dtype_Z dt) (map col_Z df)) 10.

Declare Scope script_scope.
Delimit Scope script_scope with script.
Notation "x <- m ;; k" := (bind m (fun x => k))
  (at level 61, m at next level, right associativity) : script_scope.
Notation "m ;;; k" := (bind m (fun _ => k))
  (at level 61, right associativity) : script_scope.

Definition trace {A : Type} (m : script A) : list effect := fst m.

Definition outcome {A : Type} (m : script A) : exn + A := snd m.

(** The variables that only the branch [len(df) >= 4] assigns. *)
Record locals := mkLocals {
  grid_x : option (grid float);
  grid_y : option (grid float);
  grid_z : option (grid float);
  gas_cap : option float;
  oil_zone : option float;
  total_res : option float
}.

Definition unassigned : locals := mkLocals None None None None None None.

(** [pd.DataFrame({'X': .., 'Y': .., 'Z': ..}).dropna()] over the
    flattened grids. *)
Definition dropna (xyz : float * float * float) : option (Q * Q * Q) :=
  match xyz with
  | (Some x, Some y, Some z) => Some (x, y, z)
  | _ => None
  end.

Fixpoint filter_map {A B : Type} (f : A -> option B) (l : list A) : list B :=
  match l with
  | [] => []
  | a :: l' =>
      match f a with
      | Some b => b :: filter_map f l'
      | None => filter_map f l'
      end
  end.

Definition grid_df (gx gy gz : grid float) : list (Q * Q * Q) :=
  filter_map dropna (combine (combine (concat gx) (concat gy)) (concat gz)).

Section Page.

(** [scipy.interpolate.griddata(points, values, xi, method)]: a library
    call, which returns an array of depths (NaN where it has no estimate)
    or raises. *)
Variable griddata :
  list Q * list Q -> list Q -> grid float * grid float -> method ->
  exn + grid float.

Definition call_griddata (points : list Q * list Q) (values : list Q)
           (xi : grid float * grid float) (m : method) : script (grid float) :=
  (emit (griddata_call m points values) ;;;
   match griddata points values xi m with
   | inl e => raise e
   | inr z => ret z
   end)%script.

(** Lines 65-79: the sidebar reads the two contacts (here the inputs
    [goc_input] and [woc_input]) when the frame is not empty. *)
Definition sidebar (df : dataframe) (goc_input woc_input : Q) : script unit :=
  match df with
  | [] => ret tt
  | _ => when (Qltb woc_input goc_input) (emit st_warning_goc_woc)
  end.

(** Lines 140-142: the sample coordinates, 100 per axis, and their cross
    product. *)
Definition sample_grid (df : dataframe) : grid float * grid float :=
  meshgrid
    (flinspace (series_min (map col_X df)) (series_max (map col_X df)) 100)
    (flinspace (series_min (map col_Y df)) (series_max (map col_Y df)) 100).

(** Lines 139-147: duplicate averaging, the sample grid and the
    interpolation, the smooth method first and the linear one when it
    raises. *)
Definition compute_surface (df : dataframe)
  : script (grid float * grid float * grid float) :=
  (let df_unique := groupby_mean df in
   let xi := sample_grid df in
   let points := (map col_X df_unique, map col_Y df_unique) in
   let values := map col_Z df_unique in
   gz <- try_except (call_griddata points values xi cubic)
                    (call_griddata points values xi linear) ;;
   ret (fst xi, snd xi, gz))%script.

(** Lines 138-260. *)
Definition surface_branch (dt : dtypes) (df : dataframe)
           (goc_input woc_input : Q) : script locals :=
  (xyz <- compute_surface df ;;
   let '(gx, gy, gz) := xyz in
   let area := cell_area dt df in
   let total := vol_total_res area gz woc_input in
   let gas := vol_gas_cap area gz goc_input in
   let oil := vol_oil_zone area gz goc_input woc_input in
   emit (st_metric_volumes gas oil total) ;;;
   go_Contour (contour_size dt df) ;;;
   let labels := classify df goc_input woc_input in
   emit (st_plotly_chart_2d gz labels) ;;;
   emit (st_plotly_chart_3d gz) ;;;
   emit (st_dataframe df (Some labels)) ;;;
   ret (mkLocals (Some gx) (Some gy) (Some gz)
                 (Some gas) (Some oil) (Some total)))%script.

(** Lines 262-264. *)
Definition raw_points_branch (df : dataframe) : script locals :=
  (emit st_warning_not_enough ;;;
   emit (st_dataframe df None) ;;;
   ret unassigned)%script.

(** Lines 266-427: the figures for the export and the download buttons.
    The statements read the variables in the order given here. *)
Definition export_section (dt : dtypes) (df : dataframe)
           (goc_input woc_input : Q) (vars : locals) : script unit :=
  (z2d <- load "grid_z" (grid_z vars) ;;
   go_Contour (contour_size dt df) ;;;
   let labels := classify df goc_input woc_input in
   _z3d <- load "grid_z" (grid_z vars) ;;
   _gx3d <- load "grid_x" (grid_x vars) ;;
   _gy3d <- load "grid_y" (grid_y vars) ;;
   gx <- load "grid_x" (grid_x vars) ;;
   gy <- load "grid_y" (grid_y vars) ;;
   gz <- load "grid_z" (grid_z vars) ;;
   let csv_data := grid_df gx gy gz in
   gas <- load "vol_gas_cap" (gas_cap vars) ;;
   oil <- load "vol_oil_zone" (oil_zone vars) ;;
   total <- load "vol_total_res" (total_res vars) ;;
   emit (st_download_csv csv_data) ;;;
   emit (st_download_txt gas oil total))%script.

(** Lines 131-427, after the sidebar.  [dt] holds the dtypes of the
    columns of [df]. *)
Definition main (dt : dtypes) (df : dataframe) (goc_input woc_input : Q)
  : script unit :=
  (sidebar df goc_input woc_input ;;;
   match df with
   | [] => emit st_info_no_data
   | _ =>
       vars <- (if (4 <=? length df)%nat
                then surface_branch dt df goc_input woc_input
                else raw_points_branch df) ;;
       export_section dt df goc_input woc_input vars
   end)%script.

End Page.

(** ** The specification's sums, over the defined nodes only (section 4.3) *)

Definition defined_nodes (grid_z : grid float) : list Q :=
  filter_map (fun v : float => v) (concat grid_z).

(** [sum over defined nodes of max(0, contact - Z(node)) * cellArea]. *)
Definition spec_volume_above (contact area : Q) (grid_z : grid float) : Q :=
  fold_right (fun z acc => Qmax 0 (contact - z) * area + acc) 0
             (defined_nodes grid_z).

(** [sum((WOC - Z(node)) * cellArea)] over the defined nodes, unclamped. *)
Definition spec_unclamped_volume (contact area : Q) (grid_z : grid float) : Q :=
  fold_right (fun z acc => (contact - z) * area + acc) 0
             (defined_nodes grid_z).

(** ** Reading a run *)

Definition is_griddata_call (e : effect) : bool :=
  match e with
  | griddata_call _ _ _ => true
  | _ => false
  end.

(** Whether the run called the interpolation at all. *)
Definition interpolation_attempted {A : Type} (m : script A) : bool :=
  existsb is_griddata_call (trace m).

(** The effects that carry a surface or a number computed from one. *)
Definition shows_surface (e : effect) : bool :=
  match e with
  | st_metric_volumes _ _ _ => true
  | st_plotly_chart_2d _ _ => true
  | st_plotly_chart_3d _ => true
  | st_download_csv _ => true
  | st_download_txt _ _ _ => true
  | _ => false
  end.

Definition surface_produced {A : Type} (m : script A) : bool :=
  existsb shows_surface (trace m).

(** What the sidebar draws (lines 78-79). *)
Definition sidebar_trace (df : dataframe) (goc_input woc_input : Q)
  : list effect :=
  match df with
  | [] => []
  | _ => if Qltb woc_input goc_input then [st_warning_goc_woc] else []
  end.

(** ** Sample inputs *)

(** The built-in demo dataset (lines 120-128). *)
Definition demo_points : dataframe :=
  [ mkRow 100 100 1300; mkRow 300 100 1300;
    mkRow 100 300 1300; mkRow 300 300 1300;
    mkRow 200 200 1000;
    mkRow 200 100 1150; mkRow 200 300 1150;
    mkRow 100 200 1150; mkRow 300 200 1150;
    mkRow 150 150 1100; mkRow 250 250 1100;
    mkRow 150 250 1100; mkRow 250 150 1100 ].

(** A small surface with one node that has no estimate. *)
Definition sample_surface : grid float :=
  [ [num 1000; NaN]; [num 1250; num 900] ].

(** Four entries at one location. *)
Definition stacked_points : dataframe :=
  [ mkRow 0 0 1000; mkRow 0 0 1010; mkRow 0 0 1020; mkRow 0 0 1030 ].

(** Stand-ins for the library call, to run the page on sample inputs: one
    answers every query node with the same depth, one always raises. *)
Definition griddata_flat (depth : float)
           (points : list Q * list Q) (values : list Q)
           (xi : grid float * grid float) (m : method) : exn + grid float :=
  inr (map (map (fun _ => depth)) (fst xi)).

Definition griddata_raises
           (points : list Q * list Q) (values : list Q)
           (xi : grid float * grid float) (m : method) : exn + grid float :=
  inl (InterpolationError "QhullError").

(** ** The rest of the page's data handling *)

Definition fadd (a b : float) : float :=
  match a, b with
  | Some x, Some y => Some (x + y)
  | _, _ => None
  end.

(** Line 69: [min_z, max_z = df['Z'].min(), df['Z'].max()]. *)
Definition min_z (df : dataframe) : float := series_min (map col_Z df).

Definition max_z (df : dataframe) : float := series_max (map col_Z df).

(** Lines 73 and 76: the values the two contact inputs start with,
    [min_z + (max_z - min_z) * 0.3] and [... * 0.7]; the literals are taken
    as the rationals 3/10 and 7/10. *)
Definition default_goc (dt : dtypes) (df : dataframe) : float :=
  fadd (min_z df)
       (fmul (extent (dtype_Z dt) (map col_Z df)) (num (3 # 10))).

Definition default_woc (dt : dtypes) (df : dataframe) : float :=
  fadd (min_z df)
       (fmul (extent (dtype_Z dt) (map col_Z df)) (num (7 # 10))).

(** Lines 216-217: [subset = df[df['Fluid'] == fluid]], the rows whose
    label is [fluid], in the order of the frame. *)
Definition fluid_eqb (a b : fluid) : bool :=
  match a, b with
  | Gas_Cap, Gas_Cap | Oil_Zone, Oil_Zone
  | Aquifer, Aquifer | Unknown, Unknown => true
  | _, _ => false
  end.

Definition subset (df : dataframe) (labels : list fluid) (f : fluid)
  : dataframe :=
  map fst (filter (fun rl => fluid_eqb (snd rl) f) (combine df labels)).

(** Lines 216-224: one scatter trace per label of [choices] whose subset
    is not empty, in the order of [choices]. *)
Definition scatter_traces (df : dataframe) (goc_input woc_input : Q)
  : list (fluid * dataframe) :=
  filter (fun t => match snd t with [] => false | _ => true end)
         (map (fun f => (f, subset df (classify df goc_input woc_input) f))
              choices).

(** ** Vocabulary of the statements *)

Definition location (r : row) : key := (col_X r, col_Y r).

Definition key_eq (a b : key) : Prop := fst a == fst b /\ snd a == snd b.

Definition key_lt (a b : key) : Prop := key_compare a b = Lt.

Definition group_lt (g h : group) : Prop := key_lt (fst g) (fst h).

(** The arguments of both interpolation calls (lines 145 and 147): the
    columns of the averaged frame. *)
Definition query_points (df : dataframe) : list Q * list Q :=
  (map col_X (groupby_mean df), map col_Y (groupby_mean df)).

Definition query_values (df : dataframe) : list Q :=
  map col_Z (groupby_mean df).

(** The zones from the shallowest to the deepest. *)
Definition zone_rank (f : fluid) : nat :=
  match f with
  | Gas_Cap => 0
  | Oil_Zone => 1
  | Aquifer => 2
  | Unknown => 3
  end.

Definition is_defined (v : float) : Prop := exists q, v = num q.

Definition third {A B C : Type} (t : A * B * C) : C := snd t.

(** An integer frame (as from an uploaded file with integer columns):
    four wells at depth 1000 at the corners of a rectangle whose X
    coordinates reach across more than [2^63]. *)
Definition wide_points : dataframe :=
  [ mkRow (-9000000000000000000) 0 1000;
    mkRow 9000000000000000000 0 1000;
    mkRow (-9000000000000000000) 4000000000000000000 1000;
    mkRow 9000000000000000000 4000000000000000000 1000 ].

Definition int_dtypes : dtypes := mkDtypes int64 int64 int64.

Definition float_dtypes : dtypes := mkDtypes float64 float64 float64.

(** An entry of an [int64] column is an integer in the 64-bit range. *)
Definition int64_entry (q : Q) : Prop :=
  exists z : Z, q = inject_Z z /\ (- 2 ^ 63 <= z < 2 ^ 63)%Z.

(** The entries of a column agree with its dtype. *)
Definition column_ok (dt : dtype) (s : list Q) : Prop :=
  match dt with
  | float64 => True
  | int64 => Forall int64_entry s
  end.


(** Four entries, one location entered twice. *)
Definition repeated_points : dataframe :=
  [ mkRow 10 20 1000; mkRow 0 5 1100; mkRow 10 20 1040; mkRow 0 0 900 ].

(** A surface of one depth at every node of the 100 x 100 lattice. *)
Definition flat_surface (depth : Q) : grid float :=
  repeat (repeat (num depth) nx) ny.

(** A stand-in for the library call whose smooth method raises and whose
    linear method answers every query node with the same depth. *)
Definition griddata_linear_only (depth : float)
           (points : list Q * list Q) (values : list Q)
           (xi : grid float * grid float) (m : method) : exn + grid float :=
  match m with
  | cubic => inl (InterpolationError "QhullError")
  | linear => inr (map (map (fun _ => depth)) (fst xi))
  end.

(** ** Order lemmas *)

Lemma Qltb_lt (x y : Q) : Qltb x y = true <-> x < y.
Proof.
  unfold Qltb. rewrite Qlt_alt. destruct (x ?= y); split; congruence.
Qed.

Lemma Qltb_ge (x y : Q) : Qltb x y = false <-> y <= x.
Proof.
  split; intro H.
  - apply Qnot_lt_le. intro L. apply Qltb_lt in L. congruence.
  - destruct (Qltb x y) eqn:E; [|reflexivity].
    apply Qltb_lt in E. exfalso. exact (Qlt_not_le _ _ E H).
Qed.

Lemma Qleb_le (x y : Q) : Qleb x y = true <-> x <= y.
Proof.
  unfold Qleb. rewrite Qle_alt. destruct (x ?= y); split; congruence.
Qed.

Lemma Qleb_gt (x y : Q) : Qleb x y = false <-> y < x.
Proof.
  split; intro H.
  - apply Qnot_le_lt. intro L. apply Qleb_le in L. congruence.
  - destruct (Qleb x y) eqn:E; [|reflexivity].
    apply Qleb_le in E. exfalso. exact (Qlt_not_le _ _ H E).
Qed.

Lemma fold_min_le (xs : list Q) (x : Q) : fold_left Qmin xs x <= x.
Proof.
  revert x. induction xs as [|y ys IH]; intro x; simpl.
  - apply Qle_refl.
  - eapply Qle_trans; [apply IH | apply Q.le_min_l].
Qed.

Lemma fold_max_ge (xs : list Q) (x : Q) : x <= fold_left Qmax xs x.
Proof.
  revert x. induction xs as [|y ys IH]; intro x; simpl.
  - apply Qle_refl.
  - eapply Qle_trans; [apply Q.le_max_l | apply IH].
Qed.

Lemma series_extent (s : list Q) :
  s <> [] ->
  exists lo hi, series_min s = num lo /\ series_max s = num hi /\ lo <= hi.
Proof.
  destruct s as [|x xs]; [congruence|]. intros _.
  exists (fold_left Qmin xs x), (fold_left Qmax xs x).
  repeat split.
  eapply Qle_trans; [apply fold_min_le | apply fold_max_ge].
Qed.

Lemma cell_area_of_extents (dt : dtypes) (df : dataframe) (ex ey : Q) :
  extent (dtype_X dt) (map col_X df) = num ex ->
  extent (dtype_Y dt) (map col_Y df) = num ey ->
  cell_area dt df = num (ex / 99 * (ey / 99)).
Proof.
  intros Ex Ey. unfold cell_area, dx, dy. rewrite Ex, Ey. reflexivity.
Qed.

Lemma extent_float64 (s : list Q) :
  s <> [] ->
  exists lo hi,
    series_min s = num lo /\ series_max s = num hi /\ lo <= hi /\
    extent float64 s = num (hi - lo).
Proof.
  intro Hne. destruct (series_extent s Hne) as (lo & hi & El & Eh & Hle).
  exists lo, hi. repeat split; try assumption.
  unfold extent. rewrite El, Eh. reflexivity.
Qed.

Lemma scaled_extents_nonneg (ex ey : Q) :
  0 <= ex -> 0 <= ey -> 0 <= ex / 99 * (ey / 99).
Proof.
  intros Hx Hy.
  apply Qmult_le_0_compat; apply Qle_shift_div_l; try reflexivity;
    rewrite Qmult_0_l; assumption.
Qed.

(** ** The thickness of one node and the sums *)

Lemma thickness_nan (c : Q) : thickness c NaN = NaN.
Proof. reflexivity. Qed.

Lemma thickness_defined (c z : Q) :
  exists t, thickness c (num z) = num t /\ t == Qmax 0 (c - z).
Proof.
  unfold thickness, clamp_negative, fsub, num, fltb.
  destruct (Qltb (c - z) 0) eqn:E.
  - exists 0. split; [reflexivity|].
    apply Qltb_lt in E. symmetry. apply Q.max_l. apply Qlt_le_weak, E.
  - exists (c - z). split; [reflexivity|].
    apply Qltb_ge in E. symmetry. apply Q.max_r, E.
Qed.

Lemma thickness_contribution (c : Q) (v : float) :
  nan_to_zero (thickness c v) ==
  match v with Some z => Qmax 0 (c - z) | None => 0 end.
Proof.
  destruct v as [z|]; [|reflexivity].
  destruct (thickness_defined c z) as (t & E & Ht).
  unfold num in E. rewrite E. exact Ht.
Qed.

Lemma thickness_nonneg (c : Q) (v : float) : 0 <= nan_to_zero (thickness c v).
Proof.
  rewrite thickness_contribution. destruct v as [z|].
  - apply Q.le_max_l.
  - apply Qle_refl.
Qed.

Lemma nansum_thick_above (c : Q) (grid_z : grid float) :
  nansum (thick_above c grid_z) = nansum_flat (map (thickness c) (concat grid_z)).
Proof.
  unfold nansum, thick_above. now rewrite <- concat_map.
Qed.

Lemma nansum_flat_thickness_nonneg (c : Q) (l : list float) :
  0 <= nansum_flat (map (thickness c) l).
Proof.
  induction l as [|v l IH]; simpl.
  - apply Qle_refl.
  - change 0 with (0 + 0). apply Qplus_le_compat; [apply thickness_nonneg | exact IH].
Qed.

Lemma nansum_thick_nonneg (c : Q) (grid_z : grid float) :
  0 <= nansum (thick_above c grid_z).
Proof.
  rewrite nansum_thick_above. apply nansum_flat_thickness_nonneg.
Qed.

(** The sum the script takes is the sum over the defined nodes. *)
Lemma nansum_flat_defined (c area : Q) (l : list float) :
  nansum_flat (map (thickness c) l) * area ==
  fold_right (fun z acc => Qmax 0 (c - z) * area + acc) 0
             (filter_map (fun v : float => v) l).
Proof.
  induction l as [|v l IH]; simpl.
  - ring.
  - rewrite Qmult_plus_distr_l, IH, thickness_contribution.
    destruct v as [z|]; simpl; ring.
Qed.

Lemma nansum_flat_monotone (c c' : Q) (l : list float) :
  c <= c' ->
  nansum_flat (map (thickness c) l) <= nansum_flat (map (thickness c') l).
Proof.
  intro H. induction l as [|v l IH]; simpl.
  - apply Qle_refl.
  - apply Qplus_le_compat; [|exact IH].
    rewrite !thickness_contribution. destruct v as [z|]; [|apply Qle_refl].
    apply Q.max_le_compat_l.
    unfold Qminus. apply Qplus_le_compat; [exact H | apply Qle_refl].
Qed.

Lemma nansum_flat_unclamped (c area : Q) (l : list float) :
  (forall z, In (num z) l -> z < c) ->
  nansum_flat (map (thickness c) l) * area ==
  fold_right (fun z acc => (c - z) * area + acc) 0
             (filter_map (fun v : float => v) l).
Proof.
  induction l as [|v l IH]; intro H; simpl.
  - ring.
  - rewrite Qmult_plus_distr_l, IH, thickness_contribution
      by (intros z Hz; apply H; right; exact Hz).
    destruct v as [z|]; simpl; [|ring].
    assert (Hz : z < c) by (apply H; left; reflexivity).
    rewrite Q.max_r; [reflexivity|].
    apply Qlt_le_weak. unfold Qminus. rewrite <- Qlt_minus_iff. exact Hz.
Qed.

(** ** The volumes *)

Lemma py_max0_num (v : Q) :
  exists o, py_max0 (num v) = num o /\ o == Qmax 0 v /\ 0 <= o.
Proof.
  unfold py_max0, fltb, num.
  destruct (Qltb 0 v) eqn:E.
  - apply Qltb_lt in E. exists v. split; [reflexivity|]. split.
    + symmetry. apply Q.max_r. apply Qlt_le_weak, E.
    + apply Qlt_le_weak, E.
  - apply Qltb_ge in E. exists 0. split; [reflexivity|]. split.
    + symmetry. apply Q.max_l, E.
    + apply Qle_refl.
Qed.

(** X20.  For every non-negative cell area, every surface and every pair
    of contacts the three volumes are numbers, none of them is negative,
    and the oil-zone volume is [max(0, totalReservoir - gasCap)]. *)
Theorem volumes_nonnegative_for_nonnegative_area
  (area : Q) (grid_z : grid float) (goc_input woc_input : Q) :
  0 <= area ->
  exists gasCap oilZone totalReservoir : Q,
    vol_gas_cap (num area) grid_z goc_input = num gasCap /\
    vol_oil_zone (num area) grid_z goc_input woc_input = num oilZone /\
    vol_total_res (num area) grid_z woc_input = num totalReservoir /\
    0 <= gasCap /\ 0 <= oilZone /\ 0 <= totalReservoir /\
    oilZone == Qmax 0 (totalReservoir - gasCap).
Proof.
  intro Ha.
  unfold vol_oil_zone, vol_gas_cap, vol_total_res, thick_above_goc,
    thick_above_woc.
  simpl fmul. simpl fsub.
  set (g := nansum (thick_above goc_input grid_z) * area).
  set (t := nansum (thick_above woc_input grid_z) * area).
  destruct (py_max0_num (t - g)) as (o & Eo & Ho & Hpos).
  exists g, o, t. unfold num in *.
  repeat split; try assumption.
  - apply Qmult_le_0_compat; [apply nansum_thick_nonneg | exact Ha].
  - apply Qmult_le_0_compat; [apply nansum_thick_nonneg | exact Ha].
Qed.

Lemma volumes_nonnegative_witness :
  exists gasCap oilZone totalReservoir : Q,
    vol_gas_cap (num 4) sample_surface 1090 = num gasCap /\
    vol_oil_zone (num 4) sample_surface 1090 1210 = num oilZone /\
    vol_total_res (num 4) sample_surface 1210 = num totalReservoir /\
    0 <= gasCap /\ 0 <= oilZone /\ 0 <= totalReservoir /\
    oilZone == Qmax 0 (totalReservoir - gasCap).
Proof.
  apply (volumes_nonnegative_for_nonnegative_area 4 sample_surface 1090 1210).
  discriminate.
Defined.

(** C2.  In both volume sums a node with no depth estimate contributes
    nothing: for every surface, cell area and pair of contacts the total
    the script computes is the sum, over the defined nodes only, of the
    clamped thickness times the cell area.  (A node filled with depth zero
    would add [contact * area] instead.) *)
Theorem undefined_nodes_contribute_zero
  (grid_z : grid float) (area goc_input woc_input : Q) :
  exists gasCap totalReservoir : Q,
    vol_total_res (num area) grid_z woc_input = num totalReservoir /\
    vol_gas_cap (num area) grid_z goc_input = num gasCap /\
    totalReservoir == spec_volume_above woc_input area grid_z /\
    gasCap == spec_volume_above goc_input area grid_z.
Proof.
  exists (nansum (thick_above_goc goc_input grid_z) * area),
         (nansum (thick_above_woc woc_input grid_z) * area).
  repeat split.
  - unfold thick_above_woc, spec_volume_above, defined_nodes.
    rewrite nansum_thick_above. apply nansum_flat_defined.
  - unfold thick_above_goc, spec_volume_above, defined_nodes.
    rewrite nansum_thick_above. apply nansum_flat_defined.
Qed.

(** The same surface with its undefined node filled with depth zero gives
    another total: the script does not zero-fill. *)
Example zero_filling_differs :
  vol_total_res (num 1) [[num 1000; NaN]] 1100 = num (100 * 1) /\
  vol_total_res (num 1) [[num 1000; num 0]] 1100 = num ((100 + 1100) * 1).
Proof.
  split; vm_compute; reflexivity.
Qed.

(** C9.  When every defined depth of the surface is smaller than WOC, the
    total reservoir volume is the plain sum of [(WOC - Z(node)) * cellArea]
    over the defined nodes: the clamp changes no term. *)
Theorem total_reservoir_unclamped_above_woc
  (grid_z : grid float) (area woc_input : Q) :
  (forall z, In (num z) (concat grid_z) -> z < woc_input) ->
  exists totalReservoir : Q,
    vol_total_res (num area) grid_z woc_input = num totalReservoir /\
    totalReservoir == spec_unclamped_volume woc_input area grid_z /\
    map (thickness woc_input) (map num (defined_nodes grid_z))
    = map (fun z => num (woc_input - z)) (defined_nodes grid_z).
Proof.
  intro H.
  exists (nansum (thick_above_woc woc_input grid_z) * area).
  split; [reflexivity|]. split.
  - unfold thick_above_woc, spec_unclamped_volume, defined_nodes.
    rewrite nansum_thick_above. apply nansum_flat_unclamped. exact H.
  - unfold defined_nodes. revert H.
    induction (concat grid_z) as [|v l IH]; intro H; [reflexivity|].
    assert (IH' := IH (fun z Hz => H z (or_intror Hz))).
    destruct v as [z|]; simpl; [|exact IH'].
    f_equal; [|exact IH'].
    assert (Hz : z < woc_input) by (apply H; left; reflexivity).
    unfold thickness, clamp_negative, fsub, num, fltb.
    replace (Qltb (woc_input - z) 0) with false; [reflexivity|].
    symmetry. apply Qltb_ge. apply Qlt_le_weak.
    unfold Qminus. rewrite <- Qlt_minus_iff. exact Hz.
Qed.

Lemma total_reservoir_unclamped_witness :
  exists totalReservoir : Q,
    vol_total_res (num 4) sample_surface 1300 = num totalReservoir /\
    totalReservoir == spec_unclamped_volume 1300 4 sample_surface /\
    map (thickness 1300) (map num (defined_nodes sample_surface))
    = map (fun z => num (1300 - z)) (defined_nodes sample_surface).
Proof.
  apply (total_reservoir_unclamped_above_woc sample_surface 4 1300).
  intros z Hz. simpl in Hz. unfold num, NaN in Hz.
  repeat (destruct Hz as [Hz|Hz];
          [try discriminate Hz; injection Hz as <-; reflexivity|]).
  contradiction.
Defined.

(** ** Classification *)

Lemma fluid_of_cases (goc_input woc_input z : Q) :
  fluid_of goc_input woc_input z =
  if Qltb z goc_input then Gas_Cap
  else if Qleb goc_input z && Qleb z woc_input then Oil_Zone
  else if Qltb woc_input z then Aquifer
  else Unknown.
Proof. reflexivity. Qed.

Lemma fluid_of_gas (goc_input woc_input z : Q) :
  z < goc_input -> fluid_of goc_input woc_input z = Gas_Cap.
Proof.
  intro H. rewrite fluid_of_cases.
  apply Qltb_lt in H. now rewrite H.
Qed.

Lemma fluid_of_oil (goc_input woc_input z : Q) :
  goc_input <= z -> z <= woc_input ->
  fluid_of goc_input woc_input z = Oil_Zone.
Proof.
  intros H1 H2. rewrite fluid_of_cases.
  assert (E : Qltb z goc_input = false) by (apply Qltb_ge; exact H1).
  apply Qleb_le in H1. apply Qleb_le in H2.
  now rewrite E, H1, H2.
Qed.

Lemma fluid_of_aquifer (goc_input woc_input z : Q) :
  goc_input <= z -> woc_input < z ->
  fluid_of goc_input woc_input z = Aquifer.
Proof.
  intros H1 H2. rewrite fluid_of_cases.
  assert (E1 : Qltb z goc_input = false) by (apply Qltb_ge; exact H1).
  assert (E2 : Qleb z woc_input = false) by (apply Qleb_gt; exact H2).
  apply Qltb_lt in H2.
  now rewrite E1, E2, andb_false_r, H2.
Qed.

Lemma fluid_of_known (goc_input woc_input z : Q) :
  fluid_of goc_input woc_input z = Gas_Cap \/
  fluid_of goc_input woc_input z = Oil_Zone \/
  fluid_of goc_input woc_input z = Aquifer.
Proof.
  destruct (Qlt_le_dec z goc_input) as [Hg|Hg].
  - left. now apply fluid_of_gas.
  - destruct (Qlt_le_dec woc_input z) as [Hw|Hw].
    + right; right. now apply fluid_of_aquifer.
    + right; left. now apply fluid_of_oil.
Qed.

(** C7 as stated fails for inverted contacts: with GOC = 1100 and
    WOC = 1000 the depth 1050 is below WOC ([Z > WOC]) and is labelled
    Gas Cap, not Aquifer. *)
Lemma below_woc_not_always_aquifer :
  1000 < 1050 /\ fluid_of 1100 1000 1050 = Gas_Cap.
Proof. split; reflexivity. Qed.

(** C7, amended.  For every depth and every pair of contacts: [Z < GOC]
    gives Gas Cap; [GOC <= Z <= WOC] gives Oil Zone, both bounds included;
    [Z > WOC] gives Aquifer when also [GOC <= Z] (which [Z > WOC] implies
    as soon as [GOC <= WOC]).  Every point gets one of the three labels,
    [Unknown] is never produced, and a frame is labelled entry by entry. *)
Theorem classification_total_and_exhaustive
  (df : dataframe) (goc_input woc_input z : Q) :
  (z < goc_input -> fluid_of goc_input woc_input z = Gas_Cap) /\
  (goc_input <= z <= woc_input -> fluid_of goc_input woc_input z = Oil_Zone) /\
  (woc_input < z -> goc_input <= z ->
   fluid_of goc_input woc_input z = Aquifer) /\
  (goc_input <= woc_input -> woc_input < z ->
   fluid_of goc_input woc_input z = Aquifer) /\
  (fluid_of goc_input woc_input z = Gas_Cap \/
   fluid_of goc_input woc_input z = Oil_Zone \/
   fluid_of goc_input woc_input z = Aquifer) /\
  fluid_of goc_input woc_input z <> Unknown /\
  length (classify df goc_input woc_input) = length df /\
  Forall (fun label => label <> Unknown) (classify df goc_input woc_input).
Proof.
  assert (K : forall x, fluid_of goc_input woc_input x <> Unknown).
  { intro x. destruct (fluid_of_known goc_input woc_input x) as [E|[E|E]];
      rewrite E; discriminate. }
  repeat split.
  - apply fluid_of_gas.
  - intros [H1 H2]. now apply fluid_of_oil.
  - intros H1 H2. now apply fluid_of_aquifer.
  - intros H1 H2. apply fluid_of_aquifer; [|exact H2].
    apply Qlt_le_weak. eapply Qle_lt_trans; eassumption.
  - apply fluid_of_known.
  - apply K.
  - unfold classify. apply length_map.
  - unfold classify. apply Forall_map. apply Forall_forall. intros r _. apply K.
Qed.

(** C10.  With inverted contacts, a depth strictly between them satisfies
    the first and the third condition of the classifier at once; the first
    one decides, so the point is Gas Cap and not Aquifer. *)
Theorem inverted_contacts_first_condition_wins (goc_input woc_input z : Q) :
  woc_input < goc_input -> woc_input < z -> z < goc_input ->
  nth 0 (conditions goc_input woc_input z) false = true /\
  nth 2 (conditions goc_input woc_input z) false = true /\
  fluid_of goc_input woc_input z = Gas_Cap /\
  fluid_of goc_input woc_input z <> Aquifer.
Proof.
  intros _ Hw Hg.
  assert (E : fluid_of goc_input woc_input z = Gas_Cap)
    by now apply fluid_of_gas.
  repeat split.
  - simpl. now apply Qltb_lt.
  - simpl. now apply Qltb_lt.
  - exact E.
  - rewrite E. discriminate.
Qed.

Lemma inverted_contacts_witness :
  nth 0 (conditions 1100 1000 1050) false = true /\
  nth 2 (conditions 1100 1000 1050) false = true /\
  fluid_of 1100 1000 1050 = Gas_Cap /\
  fluid_of 1100 1000 1050 <> Aquifer.
Proof.
  apply (inverted_contacts_first_condition_wins 1100 1000 1050);
    reflexivity.
Defined.

(** ** The runs of the page *)

Section Runs.

Variable griddata :
  list Q * list Q -> list Q -> grid float * grid float -> method ->
  exn + grid float.

Lemma sidebar_run (df : dataframe) (goc_input woc_input : Q) :
  sidebar df goc_input woc_input
  = (sidebar_trace df goc_input woc_input, inr tt).
Proof.
  unfold sidebar, sidebar_trace, when. destruct df; [reflexivity|].
  destruct (Qltb woc_input goc_input); reflexivity.
Qed.

Lemma main_no_data (dt : dtypes) (goc_input woc_input : Q) :
  main griddata dt [] goc_input woc_input = ([st_info_no_data], inr tt).
Proof. reflexivity. Qed.

Lemma main_few_points (dt : dtypes) (df : dataframe)
      (goc_input woc_input : Q) :
  (0 < length df < 4)%nat ->
  main griddata dt df goc_input woc_input
  = (sidebar_trace df goc_input woc_input
       ++ [st_warning_not_enough; st_dataframe df None],
     inl (NameError "grid_z")).
Proof.
  intros [Hpos Hlt]. unfold main. rewrite sidebar_run.
  destruct df as [|r df]; [simpl in Hpos; lia|].
  replace (4 <=? length (r :: df))%nat with false
    by (symmetry; apply Nat.leb_gt; exact Hlt).
  reflexivity.
Qed.

Lemma main_interpolation_raises
  (dt : dtypes) (df : dataframe) (goc_input woc_input : Q)
  (t : list effect) (e : exn) :
  (4 <= length df)%nat ->
  compute_surface griddata df = (t, inl e) ->
  main griddata dt df goc_input woc_input
  = (sidebar_trace df goc_input woc_input ++ t, inl e).
Proof.
  intros Hlen Hs. unfold main. rewrite sidebar_run.
  destruct df as [|r df]; [simpl in Hlen; lia|].
  replace (4 <=? length (r :: df))%nat with true
    by (symmetry; apply Nat.leb_le; exact Hlen).
  unfold surface_branch. rewrite Hs. reflexivity.
Qed.

(** The surface is returned and the contour size is refused: the volumes
    have been shown, the 2D map has not. *)
Lemma main_contour_refused
  (dt : dtypes) (df : dataframe) (goc_input woc_input : Q)
  (t : list effect) (gx gy gz : grid float) :
  (4 <= length df)%nat ->
  compute_surface griddata df = (t, inr (gx, gy, gz)) ->
  fltb (contour_size dt df) (num 0) = true ->
  main griddata dt df goc_input woc_input
  = (sidebar_trace df goc_input woc_input ++ t ++
       [ st_metric_volumes
           (vol_gas_cap (cell_area dt df) gz goc_input)
           (vol_oil_zone (cell_area dt df) gz goc_input woc_input)
           (vol_total_res (cell_area dt df) gz woc_input) ],
     inl (ValueError "contours.size")).
Proof.
  intros Hlen Hs Hc. unfold main. rewrite sidebar_run.
  destruct df as [|r df]; [simpl in Hlen; lia|].
  replace (4 <=? length (r :: df))%nat with true
    by (symmetry; apply Nat.leb_le; exact Hlen).
  unfold surface_branch. rewrite Hs.
  unfold go_Contour. rewrite Hc.
  unfold bind, emit, ret, raise; simpl.
  rewrite <- ?app_assoc. reflexivity.
Qed.

Lemma main_with_surface
  (dt : dtypes) (df : dataframe) (goc_input woc_input : Q)
  (t : list effect) (gx gy gz : grid float) :
  (4 <= length df)%nat ->
  compute_surface griddata df = (t, inr (gx, gy, gz)) ->
  fltb (contour_size dt df) (num 0) = false ->
  main griddata dt df goc_input woc_input
  = (sidebar_trace df goc_input woc_input ++ t ++
       [ st_metric_volumes
           (vol_gas_cap (cell_area dt df) gz goc_input)
           (vol_oil_zone (cell_area dt df) gz goc_input woc_input)
           (vol_total_res (cell_area dt df) gz woc_input);
         st_plotly_chart_2d gz (classify df goc_input woc_input);
         st_plotly_chart_3d gz;
         st_dataframe df (Some (classify df goc_input woc_input));
         st_download_csv (grid_df gx gy gz);
         st_download_txt
           (vol_gas_cap (cell_area dt df) gz goc_input)
           (vol_oil_zone (cell_area dt df) gz goc_input woc_input)
           (vol_total_res (cell_area dt df) gz woc_input) ],
     inr tt).
Proof.
  intros Hlen Hs Hc. unfold main. rewrite sidebar_run.
  destruct df as [|r df]; [simpl in Hlen; lia|].
  replace (4 <=? length (r :: df))%nat with true
    by (symmetry; apply Nat.leb_le; exact Hlen).
  unfold surface_branch, export_section. rewrite Hs.
  unfold go_Contour. rewrite Hc.
  unfold bind, emit, ret, load; simpl.
  rewrite <- !app_assoc. reflexivity.
Qed.

(** The interpolation always starts with the smooth method, and asks the
    linear one exactly when the smooth one raised. *)
Lemma compute_surface_run (df : dataframe) :
  let u := groupby_mean df in
  let points := (map col_X u, map col_Y u) in
  let values := map col_Z u in
  let xi := sample_grid df in
  compute_surface griddata df =
  match griddata points values xi cubic with
  | inr z => ([griddata_call cubic points values], inr (fst xi, snd xi, z))
  | inl _ =>
      match griddata points values xi linear with
      | inr z => ([griddata_call cubic points values;
                   griddata_call linear points values],
                  inr (fst xi, snd xi, z))
      | inl e => ([griddata_call cubic points values;
                   griddata_call linear points values], inl e)
      end
  end.
Proof.
  intros u points values xi.
  unfold compute_surface, call_griddata.
  fold u. fold points. fold values. fold xi.
  destruct (griddata points values xi cubic) as [e|z]; [|reflexivity].
  destruct (griddata points values xi linear) as [e'|z]; reflexivity.
Qed.

Lemma compute_surface_attempts (df : dataframe) :
  existsb is_griddata_call (trace (compute_surface griddata df)) = true.
Proof.
  rewrite compute_surface_run.
  destruct (griddata _ _ _ cubic); [|reflexivity].
  destruct (griddata _ _ _ linear); reflexivity.
Qed.

Lemma sidebar_trace_quiet (df : dataframe) (goc_input woc_input : Q) :
  existsb is_griddata_call (sidebar_trace df goc_input woc_input) = false /\
  existsb shows_surface (sidebar_trace df goc_input woc_input) = false.
Proof.
  unfold sidebar_trace. destruct df; [split; reflexivity|].
  destruct (Qltb woc_input goc_input); split; reflexivity.
Qed.

End Runs.

(** ** When the interpolation runs *)

Ltac frame_size df :=
  let H := fresh "Hsize" in
  assert (H : (length df = 0 \/ 0 < length df < 4 \/ 4 <= length df)%nat)
    by lia;
  destruct H as [H | [H | H]].

Lemma main_attempt_and_surface
  (griddata : list Q * list Q -> list Q -> grid float * grid float ->
              method -> exn + grid float)
  (dt : dtypes) (df : dataframe) (goc_input woc_input : Q) :
  ((length df < 4)%nat ->
   interpolation_attempted (main griddata dt df goc_input woc_input) = false /\
   surface_produced (main griddata dt df goc_input woc_input) = false) /\
  ((4 <= length df)%nat ->
   interpolation_attempted (main griddata dt df goc_input woc_input) = true).
Proof.
  unfold interpolation_attempted, surface_produced, trace.
  destruct (sidebar_trace_quiet df goc_input woc_input) as [Q1 Q2].
  split; intro Hlen.
  - frame_size df; [| |lia].
    + destruct df; [|discriminate]. split; reflexivity.
    + rewrite main_few_points by exact Hsize. simpl fst.
      rewrite !existsb_app, Q1, Q2. split; reflexivity.
  - pose proof (compute_surface_attempts griddata df) as Ha.
    unfold trace in Ha.
    destruct (compute_surface griddata df) as [t [e | [[gx gy] gz]]] eqn:Es.
    + rewrite (main_interpolation_raises griddata dt df _ _ t e Hlen Es).
      simpl fst in *. rewrite existsb_app, Ha. apply orb_true_r.
    + destruct (fltb (contour_size dt df) (num 0)) eqn:Ec.
      * rewrite (main_contour_refused griddata dt df _ _ t gx gy gz Hlen Es Ec).
        simpl fst in *. rewrite !existsb_app, Ha.
        rewrite orb_true_l. apply orb_true_r.
      * rewrite (main_with_surface griddata dt df _ _ t gx gy gz Hlen Es Ec).
        simpl fst in *. rewrite !existsb_app, Ha.
        rewrite orb_true_l. apply orb_true_r.
Qed.

(** C3 as stated fails: four entries at one location average to a single
    unique (X,Y), fewer than 4, and the interpolation is still called,
    whatever the library then answers. *)
Lemma stacked_rows_are_interpolated :
  (length (groupby_mean stacked_points) < 4)%nat /\
  forall griddata dt goc_input woc_input,
    interpolation_attempted
      (main griddata dt stacked_points goc_input woc_input)
    = true.
Proof.
  split; [simpl; lia|].
  intros. apply main_attempt_and_surface. simpl. lia.
Qed.

(** C3, amended.  The interpolation is attempted if and only if the frame
    has at least 4 entries, duplicates counted (the test of line 138 is on
    [len(df)], before the averaging); with fewer than 4 entries it is not
    attempted and nothing computed from a surface is shown. *)
Theorem interpolation_attempted_iff_four_rows
  (griddata : list Q * list Q -> list Q -> grid float * grid float ->
              method -> exn + grid float)
  (dt : dtypes) (df : dataframe) (goc_input woc_input : Q) :
  (interpolation_attempted (main griddata dt df goc_input woc_input) = true
   <-> (4 <= length df)%nat) /\
  ((length df < 4)%nat ->
   interpolation_attempted (main griddata dt df goc_input woc_input) = false /\
   surface_produced (main griddata dt df goc_input woc_input) = false).
Proof.
  destruct (main_attempt_and_surface griddata dt df goc_input woc_input)
    as [Hfew Hmany].
  split; [split|exact Hfew].
  - intro Ha. destruct (Nat.le_gt_cases 4 (length df)) as [H|H]; [exact H|].
    destruct (Hfew H) as [Hf _]. congruence.
  - exact Hmany.
Qed.

(** ** Too few points *)

(** C4 (what the code does).  On every non-empty frame with fewer than 4
    entries the page shows the warning and the raw table, and then the
    export section reads [grid_z], which no executed statement assigned:
    the run stops there with [NameError], and neither the figures nor the
    download buttons are reached. *)
Theorem few_points_export_raises_name_error
  (griddata : list Q * list Q -> list Q -> grid float * grid float ->
              method -> exn + grid float)
  (dt : dtypes) (df : dataframe) (goc_input woc_input : Q) :
  (0 < length df < 4)%nat ->
  In st_warning_not_enough
     (trace (main griddata dt df goc_input woc_input)) /\
  In (st_dataframe df None)
     (trace (main griddata dt df goc_input woc_input)) /\
  outcome (main griddata dt df goc_input woc_input)
  = inl (NameError "grid_z") /\
  surface_produced (main griddata dt df goc_input woc_input) = false.
Proof.
  intro Hlen.
  assert (Hs : surface_produced (main griddata dt df goc_input woc_input)
               = false)
    by (apply main_attempt_and_surface; lia).
  rewrite main_few_points in * by exact Hlen.
  unfold trace, outcome; simpl fst; simpl snd.
  repeat split; try exact Hs.
  - apply in_or_app. right. left. reflexivity.
  - apply in_or_app. right. right. left. reflexivity.
Qed.

Lemma few_points_witness :
  In st_warning_not_enough
     (trace (main griddata_raises float_dtypes [mkRow 0 0 1000] 900 1100)) /\
  In (st_dataframe [mkRow 0 0 1000] None)
     (trace (main griddata_raises float_dtypes [mkRow 0 0 1000] 900 1100)) /\
  outcome (main griddata_raises float_dtypes [mkRow 0 0 1000] 900 1100)
  = inl (NameError "grid_z") /\
  surface_produced
    (main griddata_raises float_dtypes [mkRow 0 0 1000] 900 1100) = false.
Proof.
  apply (few_points_export_raises_name_error
           griddata_raises float_dtypes [mkRow 0 0 1000] 900 1100).
  simpl. lia.
Defined.

(** The run on one point, in full. *)
Example single_point_run :
  forall griddata dt,
    main griddata dt [mkRow 0 0 1000] 900 1100
    = ([st_warning_not_enough; st_dataframe [mkRow 0 0 1000] None],
       inl (NameError "grid_z")).
Proof. reflexivity. Qed.

(** ** An extent that overflows *)

Lemma flat_answer_returned (depth : float) (df : dataframe) :
  compute_surface (griddata_flat depth) df
  = ([griddata_call cubic (query_points df) (query_values df)],
     inr (fst (sample_grid df), snd (sample_grid df),
          map (map (fun _ => depth)) (fst (sample_grid df)))).
Proof.
  rewrite compute_surface_run. reflexivity.
Qed.

(** ** Inverted contacts *)

Lemma py_max0_nonpositive (v : Q) : v <= 0 -> py_max0 (num v) = num 0.
Proof.
  intro H. unfold py_max0, fltb, num.
  replace (Qltb 0 v) with false; [reflexivity|].
  symmetry. apply Qltb_ge. exact H.
Qed.

Lemma gas_cap_covers_total_when_inverted
  (area : Q) (grid_z : grid float) (goc_input woc_input : Q) :
  0 <= area -> woc_input < goc_input ->
  nansum (thick_above_woc woc_input grid_z) * area
  <= nansum (thick_above_goc goc_input grid_z) * area.
Proof.
  intros Ha Hinv. unfold thick_above_woc, thick_above_goc.
  rewrite !nansum_thick_above.
  apply Qmult_le_compat_r; [|exact Ha].
  apply nansum_flat_monotone. apply Qlt_le_weak. exact Hinv.
Qed.

Lemma extent_defined (dt : dtype) (s : list Q) :
  s <> [] -> exists e, extent dt s = num e.
Proof.
  intro Hne. destruct (series_extent s Hne) as (lo & hi & El & Eh & _).
  unfold extent. rewrite El, Eh. destruct dt; eexists; reflexivity.
Qed.

Lemma cell_area_defined (dt : dtypes) (df : dataframe) :
  (0 < length df)%nat -> exists area, cell_area dt df = num area.
Proof.
  intro Hpos.
  assert (HX : map col_X df <> []) by (destruct df; simpl in *; [lia|congruence]).
  assert (HY : map col_Y df <> []) by (destruct df; simpl in *; [lia|congruence]).
  destruct (extent_defined (dtype_X dt) _ HX) as (ex & Ex).
  destruct (extent_defined (dtype_Y dt) _ HY) as (ey & Ey).
  eexists. apply cell_area_of_extents; eassumption.
Qed.

Lemma metrics_shown
  (griddata : list Q * list Q -> list Q -> grid float * grid float ->
              method -> exn + grid float)
  (dt : dtypes) (df : dataframe) (goc_input woc_input : Q)
  (t : list effect) (gx gy gz : grid float) :
  (4 <= length df)%nat ->
  compute_surface griddata df = (t, inr (gx, gy, gz)) ->
  In (st_metric_volumes
        (vol_gas_cap (cell_area dt df) gz goc_input)
        (vol_oil_zone (cell_area dt df) gz goc_input woc_input)
        (vol_total_res (cell_area dt df) gz woc_input))
     (trace (main griddata dt df goc_input woc_input)).
Proof.
  intros Hlen Es.
  destruct (fltb (contour_size dt df) (num 0)) eqn:Ec.
  - rewrite (main_contour_refused griddata dt df _ _ t gx gy gz Hlen Es Ec).
    unfold trace; simpl fst. apply in_or_app. right.
    apply in_or_app. right. left. reflexivity.
  - rewrite (main_with_surface griddata dt df _ _ t gx gy gz Hlen Es Ec).
    unfold trace; simpl fst. apply in_or_app. right.
    apply in_or_app. right. left. reflexivity.
Qed.

Lemma warning_shown
  (griddata : list Q * list Q -> list Q -> grid float * grid float ->
              method -> exn + grid float)
  (dt : dtypes) (df : dataframe) (goc_input woc_input : Q) :
  woc_input < goc_input -> (0 < length df)%nat ->
  In st_warning_goc_woc (trace (main griddata dt df goc_input woc_input)).
Proof.
  intros Hinv Hpos.
  assert (Hside : In st_warning_goc_woc (sidebar_trace df goc_input woc_input)).
  { unfold sidebar_trace. destruct df; [simpl in Hpos; lia|].
    apply Qltb_lt in Hinv. rewrite Hinv. left. reflexivity. }
  frame_size df; [lia| |].
  - rewrite main_few_points by exact Hsize.
    apply in_or_app. left. exact Hside.
  - destruct (compute_surface griddata df) as [t [e | [[gx gy] gz]]] eqn:Es.
    + rewrite (main_interpolation_raises griddata dt df _ _ t e Hsize Es).
      apply in_or_app. left. exact Hside.
    + destruct (fltb (contour_size dt df) (num 0)) eqn:Ec.
      * rewrite (main_contour_refused griddata dt df _ _ t gx gy gz
                   Hsize Es Ec).
        apply in_or_app. left. exact Hside.
      * rewrite (main_with_surface griddata dt df _ _ t gx gy gz Hsize Es Ec).
        apply in_or_app. left. exact Hside.
Qed.

(** C6.  When GOC > WOC and the frame is not empty the sidebar shows the
    warning.  The volumetrics take no notice of the inversion: whenever the
    interpolation returned a surface the three volumes are computed by the
    formulas and shown as numbers (the gas cap and the total are the sums
    over the defined nodes of the clamped thickness times the cell area,
    the oil zone is [max(0, total - gasCap)]), and no exception comes
    before they are shown.  For a non-negative cell area the gas cap is
    then at least the total reservoir and the oil zone is 0. *)
Theorem inverted_contacts_warned_and_computed
  (griddata : list Q * list Q -> list Q -> grid float * grid float ->
              method -> exn + grid float)
  (dt : dtypes) (df : dataframe) (goc_input woc_input : Q) :
  woc_input < goc_input -> (0 < length df)%nat ->
  In st_warning_goc_woc (trace (main griddata dt df goc_input woc_input)) /\
  ((4 <= length df)%nat ->
   forall t gx gy gz,
     compute_surface griddata df = (t, inr (gx, gy, gz)) ->
     exists area gasCap oilZone totalReservoir : Q,
       cell_area dt df = num area /\
       In (st_metric_volumes (num gasCap) (num oilZone) (num totalReservoir))
          (trace (main griddata dt df goc_input woc_input)) /\
       gasCap == spec_volume_above goc_input area gz /\
       totalReservoir == spec_volume_above woc_input area gz /\
       oilZone == Qmax 0 (totalReservoir - gasCap) /\
       (0 <= area -> totalReservoir <= gasCap /\ oilZone == 0)).
Proof.
  intros Hinv Hpos.
  split; [apply warning_shown; assumption|].
  intros Hlen t gx gy gz Es.
  destruct (cell_area_defined dt df Hpos) as (area & Ea).
  pose proof (metrics_shown griddata dt df goc_input woc_input t gx gy gz
                Hlen Es) as Hm.
  rewrite Ea in Hm.
  set (g := nansum (thick_above_goc goc_input gz) * area).
  set (w := nansum (thick_above_woc woc_input gz) * area).
  destruct (py_max0_num (w - g)) as (o & Eo & Ho & _).
  assert (Eoil : vol_oil_zone (num area) gz goc_input woc_input = num o)
    by exact Eo.
  rewrite Eoil in Hm.
  exists area, g, o, w.
  split; [exact Ea|]. split; [exact Hm|].
  split; [|split; [|split; [exact Ho|]]].
  - unfold g, thick_above_goc, spec_volume_above, defined_nodes.
    rewrite nansum_thick_above. apply nansum_flat_defined.
  - unfold w, thick_above_woc, spec_volume_above, defined_nodes.
    rewrite nansum_thick_above. apply nansum_flat_defined.
  - intro Ha.
    pose proof (gas_cap_covers_total_when_inverted
                  area gz goc_input woc_input Ha Hinv) as Hle.
    fold g in Hle. fold w in Hle. split; [exact Hle|].
    rewrite Ho. apply Q.max_l.
    unfold Qminus. apply (Qplus_le_r _ _ g). ring_simplify. exact Hle.
Qed.

Lemma inverted_contacts_warned_witness :
  In st_warning_goc_woc
     (trace (main (griddata_flat (num 1000)) int_dtypes demo_points
                  1100 1000)) /\
  ((4 <= length demo_points)%nat ->
   forall t gx gy gz,
     compute_surface (griddata_flat (num 1000)) demo_points
     = (t, inr (gx, gy, gz)) ->
     exists area gasCap oilZone totalReservoir : Q,
       cell_area int_dtypes demo_points = num area /\
       In (st_metric_volumes (num gasCap) (num oilZone) (num totalReservoir))
          (trace (main (griddata_flat (num 1000)) int_dtypes demo_points
                       1100 1000)) /\
       gasCap == spec_volume_above 1100 area gz /\
       totalReservoir == spec_volume_above 1000 area gz /\
       oilZone == Qmax 0 (totalReservoir - gasCap) /\
       (0 <= area -> totalReservoir <= gasCap /\ oilZone == 0)).
Proof.
  apply (inverted_contacts_warned_and_computed
           (griddata_flat (num 1000)) int_dtypes demo_points 1100 1000).
  - reflexivity.
  - simpl. lia.
Defined.

(** The stand-in that answers 1000 everywhere does return a surface on the
    demo dataset, at the first (smooth) call. *)
Example demo_surface_returned :
  compute_surface (griddata_flat (num 1000)) demo_points
  = ([griddata_call cubic
        (map col_X (groupby_mean demo_points),
         map col_Y (groupby_mean demo_points))
        (map col_Z (groupby_mean demo_points))],
     inr (fst (sample_grid demo_points), snd (sample_grid demo_points),
          map (map (fun _ => num 1000)) (fst (sample_grid demo_points)))).
Proof.
  rewrite compute_surface_run. reflexivity.
Qed.

(** C1 (what the code does).  On the integer frame [wide_points] the X
    column is [int64] and [x_max - x_min = 18000000000000000000] does not
    fit in 64 bits: the difference wraps to a negative number, the cell
    area is negative, and on a surface above both contacts the page shows
    a negative gas-cap volume and a negative total reservoir volume, and
    ends normally. *)
Theorem int64_extent_overflow_gives_negative_volumes :
  exists area gasCap oilZone totalReservoir : Q,
    cell_area int_dtypes wide_points = num area /\
    area < 0 /\
    In (st_metric_volumes (num gasCap) (num oilZone) (num totalReservoir))
       (trace (main (griddata_flat (num 1000)) int_dtypes wide_points
                    1050 1100)) /\
    outcome (main (griddata_flat (num 1000)) int_dtypes wide_points 1050 1100)
    = inr tt /\
    gasCap < 0 /\ totalReservoir < 0.
Proof.
  assert (Hc : fltb (contour_size int_dtypes wide_points) (num 0) = false)
    by (vm_compute; reflexivity).
  assert (Hl : (4 <= length wide_points)%nat) by (simpl; lia).
  pose proof (metrics_shown (griddata_flat (num 1000)) int_dtypes wide_points
                1050 1100 _ _ _ _ Hl
                (flat_answer_returned (num 1000) wide_points)) as Hm.
  assert (Ho : outcome (main (griddata_flat (num 1000)) int_dtypes wide_points
                             1050 1100) = inr tt).
  { rewrite (main_with_surface (griddata_flat (num 1000)) int_dtypes
               wide_points 1050 1100 _ _ _ _ Hl
               (flat_answer_returned (num 1000) wide_points) Hc).
    reflexivity. }
  set (gz := map (map (fun _ => num 1000)) (fst (sample_grid wide_points)))
    in Hm.
  assert (Ea : exists a, cell_area int_dtypes wide_points = num a /\ a < 0).
  { eexists. split; vm_compute; reflexivity. }
  destruct Ea as (a & Ea & Ha). rewrite Ea in Hm.
  assert (Sg : nansum (thick_above_goc 1050 gz) == 500000).
  { subst gz. vm_compute. reflexivity. }
  assert (St : nansum (thick_above_woc 1100 gz) == 1000000).
  { subst gz. vm_compute. reflexivity. }
  assert (Eo : vol_oil_zone (num a) gz 1050 1100 = num 0).
  { apply py_max0_nonpositive.
    change (nansum (thick_above_woc 1100 gz) * a
            - nansum (thick_above_goc 1050 gz) * a <= 0).
    rewrite Sg, St. lra. }
  rewrite Eo in Hm.
  exists a, (nansum (thick_above_goc 1050 gz) * a), 0,
         (nansum (thick_above_woc 1100 gz) * a).
  split; [exact Ea|]. split; [exact Ha|]. split; [exact Hm|].
  split; [exact Ho|]. rewrite Sg, St. split; lra.
Qed.

(** ** A frame at a single location *)

Lemma group_add_length (k : key) (z : Q) (gs : list group) :
  (length gs <= length (group_add k z gs))%nat.
Proof.
  induction gs as [|[k' [s n]] gs IH]; simpl; [lia|].
  destruct (key_compare k k'); simpl; lia.
Qed.

Lemma fold_group_add_length (df : dataframe) (gs : list group) :
  (length gs <=
   length (fold_left
             (fun gs r => group_add (col_X r, col_Y r) (col_Z r) gs) df gs))%nat.
Proof.
  revert gs. induction df as [|r df IH]; intro gs; simpl; [lia|].
  eapply Nat.le_trans; [apply group_add_length | apply IH].
Qed.

Lemma key_compare_eq (a b : key) :
  key_compare a b = Eq -> fst a == fst b /\ snd a == snd b.
Proof.
  unfold key_compare. destruct (fst a ?= fst b) eqn:E1; try discriminate.
  intro E2. split; apply Qeq_alt; assumption.
Qed.





(** ** The sample grid *)

Lemma flinspace_length (a b : float) (n : nat) : length (flinspace a b n) = n.
Proof.
  unfold flinspace, linspace.
  destruct a, b; rewrite ?length_map, ?length_seq, ?repeat_length; reflexivity.
Qed.

Lemma concat_constant_rows {A B : Type} (xs : list A) (ys : list B) :
  length (concat (map (fun _ => xs) ys)) = (length ys * length xs)%nat.
Proof.
  induction ys as [|y ys IH]; simpl; [reflexivity|].
  rewrite length_app, IH. reflexivity.
Qed.

Lemma meshgrid_node_count {A : Type} (xs ys : list A) :
  node_count (fst (meshgrid xs ys)) = (length ys * length xs)%nat /\
  node_count (snd (meshgrid xs ys)) = (length ys * length xs)%nat.
Proof.
  unfold node_count, meshgrid; simpl. split.
  - apply concat_constant_rows.
  - induction ys as [|y ys IH]; simpl; [reflexivity|].
    rewrite length_app, length_map, IH. reflexivity.
Qed.

(** The lattice the interpolation is queried on has [nx * ny] nodes,
    whatever the frame. *)
Lemma sample_grid_node_count (df : dataframe) :
  node_count (fst (sample_grid df)) = (nx * ny)%nat /\
  node_count (snd (sample_grid df)) = (nx * ny)%nat.
Proof.
  unfold sample_grid.
  destruct (meshgrid_node_count
              (flinspace (series_min (map col_X df))
                         (series_max (map col_X df)) 100)
              (flinspace (series_min (map col_Y df))
                         (series_max (map col_Y df)) 100)) as [H1 H2].
  rewrite H1, H2, !flinspace_length. split; reflexivity.
Qed.

(** ** Duplicate averaging *)

Lemma key_lt_cases (a b : key) :
  key_lt a b <-> fst a < fst b \/ (fst a == fst b /\ snd a < snd b).
Proof.
  unfold key_lt, key_compare. split.
  - destruct (fst a ?= fst b) eqn:E; intro H.
    + right. split; [apply Qeq_alt, E | apply Qlt_alt, H].
    + left. apply Qlt_alt, E.
    + discriminate.
  - intros [H | [H1 H2]].
    + now rewrite (proj1 (Qlt_alt _ _) H).
    + rewrite (proj1 (Qeq_alt _ _) H1). apply Qlt_alt, H2.
Qed.

Lemma key_lt_trans (a b c : key) : key_lt a b -> key_lt b c -> key_lt a c.
Proof.
  rewrite !key_lt_cases. intros [H1 | [H1 H1']] [H2 | [H2 H2']].
  - left. eapply Qlt_trans; eassumption.
  - left. rewrite <- H2. exact H1.
  - left. rewrite H1. exact H2.
  - right. split; [rewrite H1; exact H2 | eapply Qlt_trans; eassumption].
Qed.

Lemma key_lt_irrefl (a b : key) : key_lt a b -> ~ key_eq a b.
Proof.
  rewrite key_lt_cases. intros [H | [_ H]] [E1 E2].
  - rewrite E1 in H. exact (Qlt_irrefl _ H).
  - rewrite E2 in H. exact (Qlt_irrefl _ H).
Qed.

Lemma key_compare_gt (a b : key) : key_compare a b = Gt -> key_lt b a.
Proof.
  intro H. apply key_lt_cases. unfold key_compare in H.
  destruct (fst a ?= fst b) eqn:E; try discriminate.
  - right. split.
    + symmetry. apply Qeq_alt, E.
    + apply Qgt_alt in H. exact H.
  - left. apply Qgt_alt in E. exact E.
Qed.

Lemma group_add_head (k : key) (z : Q) (gs : list group) (g : group) :
  key_lt (fst g) k -> HdRel group_lt g gs ->
  HdRel group_lt g (group_add k z gs).
Proof.
  intros Hk Hgs. destruct gs as [|[k' [s n]] rest]; simpl.
  - constructor. exact Hk.
  - inversion Hgs as [|? ? Hh]; subst.
    destruct (key_compare k k'); constructor; try exact Hh. exact Hk.
Qed.

Lemma group_add_sorted (k : key) (z : Q) (gs : list group) :
  Sorted group_lt gs -> Sorted group_lt (group_add k z gs).
Proof.
  induction gs as [|[k' [s n]] rest IH]; intro H; simpl.
  - repeat constructor.
  - inversion H as [|? ? Hrest Hhd]; subst.
    destruct (key_compare k k') eqn:E.
    + constructor; [exact Hrest|].
      destruct rest; constructor. inversion Hhd; subst. assumption.
    + constructor; [exact H|]. constructor. exact E.
    + constructor; [apply IH, Hrest|].
      apply group_add_head; [apply key_compare_gt, E | exact Hhd].
Qed.

Lemma groups_sorted_from (df : dataframe) (gs : list group) :
  Sorted group_lt gs ->
  Sorted group_lt
    (fold_left (fun gs r => group_add (col_X r, col_Y r) (col_Z r) gs) df gs).
Proof.
  revert gs. induction df as [|r df IH]; intros gs H; simpl; [exact H|].
  apply IH, group_add_sorted, H.
Qed.

Lemma location_group_mean (g : group) : location (group_mean g) = fst g.
Proof. destruct g as [[x y] [s n]]. reflexivity. Qed.

Lemma group_lt_transitive : Relations_1.Transitive group_lt.
Proof. intros a b c. apply key_lt_trans. Qed.

(** X1.  The averaged frame is in strictly increasing order of (X, Y),
    X first: of any two of its rows the earlier has the smaller location,
    so no two of its rows are at the same location. *)
Theorem groupby_mean_strictly_sorted (df : dataframe) :
  StronglySorted (fun u v => key_lt (location u) (location v))
                 (groupby_mean df) /\
  ForallOrdPairs (fun u v => key_eq (location u) (location v) -> False)
                 (groupby_mean df).
Proof.
  assert (S : StronglySorted group_lt (groups df)).
  { apply Sorted_StronglySorted; [exact group_lt_transitive|].
    apply groups_sorted_from. constructor. }
  assert (S' : StronglySorted (fun u v => key_lt (location u) (location v))
                              (groupby_mean df)).
  { unfold groupby_mean. induction S as [|g gs Hs IH Hall]; simpl.
    - constructor.
    - constructor; [exact IH|].
      apply Forall_map. eapply Forall_impl; [|exact Hall].
      intros h Hh. rewrite !location_group_mean. exact Hh. }
  split; [exact S'|].
  induction S' as [|u us Hs IH Hall]; [constructor|].
  constructor; [|exact IH].
  eapply Forall_impl; [|exact Hall].
  intros v Hv. apply key_lt_irrefl. exact Hv.
Qed.

Lemma group_add_covers (k : key) (z : Q) (gs : list group) :
  exists g, In g (group_add k z gs) /\ key_eq k (fst g).
Proof.
  induction gs as [|[k' [s n]] rest IH]; simpl.
  - eexists; split; [left; reflexivity|]. split; reflexivity.
  - destruct (key_compare k k') eqn:E.
    + eexists; split; [left; reflexivity|]. apply key_compare_eq, E.
    + eexists; split; [left; reflexivity|]. split; reflexivity.
    + destruct IH as (g & Hin & Hk). exists g. split; [right; exact Hin|exact Hk].
Qed.

Lemma group_add_keeps (k : key) (z : Q) (gs : list group) (g : group) :
  In g gs -> exists g', In g' (group_add k z gs) /\ fst g' = fst g.
Proof.
  induction gs as [|[k' [s n]] rest IH]; simpl; [contradiction|].
  intros [<- | Hin]; destruct (key_compare k k').
  - eexists; split; [left; reflexivity|reflexivity].
  - eexists; split; [right; left; reflexivity|reflexivity].
  - eexists; split; [left; reflexivity|reflexivity].
  - exists g. split; [right; exact Hin|reflexivity].
  - exists g. split; [right; right; exact Hin|reflexivity].
  - destruct (IH Hin) as (g' & Hin' & E). exists g'.
    split; [right; exact Hin'|exact E].
Qed.

Lemma group_add_origin (k : key) (z : Q) (gs : list group) (g' : group) :
  In g' (group_add k z gs) ->
  fst g' = k \/ exists g, In g gs /\ fst g = fst g'.
Proof.
  induction gs as [|[k' [s n]] rest IH]; simpl.
  - intros [<- | []]. left. reflexivity.
  - destruct (key_compare k k').
    + intros [<- | Hin].
      * right. eexists; split; [left; reflexivity|reflexivity].
      * right. exists g'. split; [right; exact Hin|reflexivity].
    + intros [<- | Hin]; [left; reflexivity|].
      right. exists g'. split; [exact Hin|reflexivity].
    + intros [<- | Hin].
      * right. eexists; split; [left; reflexivity|reflexivity].
      * destruct (IH Hin) as [E | (g & Hg & E)]; [left; exact E|].
        right. exists g. split; [right; exact Hg|exact E].
Qed.

Lemma groups_cover_from (df : dataframe) (gs : list group) :
  (forall g, In g gs ->
   exists g', In g' (fold_left
      (fun gs r => group_add (col_X r, col_Y r) (col_Z r) gs) df gs)
      /\ fst g' = fst g) /\
  (forall r, In r df ->
   exists g', In g' (fold_left
      (fun gs r => group_add (col_X r, col_Y r) (col_Z r) gs) df gs)
      /\ key_eq (location r) (fst g')).
Proof.
  revert gs. induction df as [|r0 df IH]; intro gs; simpl.
  - split; [|contradiction]. intros g Hg. exists g. split; [exact Hg|reflexivity].
  - destruct (IH (group_add (col_X r0, col_Y r0) (col_Z r0) gs)) as [K C].
    split.
    + intros g Hg.
      destruct (group_add_keeps (col_X r0, col_Y r0) (col_Z r0) gs g Hg)
        as (g1 & H1 & E1).
      destruct (K g1 H1) as (g2 & H2 & E2).
      exists g2. split; [exact H2|congruence].
    + intros r [<- | Hin]; [|apply C, Hin].
      destruct (group_add_covers (col_X r0, col_Y r0) (col_Z r0) gs)
        as (g1 & H1 & E1).
      destruct (K g1 H1) as (g2 & H2 & E2).
      exists g2. split; [exact H2|]. rewrite E2. exact E1.
Qed.

Lemma groups_origin_from (df : dataframe) (gs : list group) (g' : group) :
  In g' (fold_left (fun gs r => group_add (col_X r, col_Y r) (col_Z r) gs)
                   df gs) ->
  (exists g, In g gs /\ fst g = fst g') \/
  (exists r, In r df /\ location r = fst g').
Proof.
  revert gs. induction df as [|r0 df IH]; intros gs H; simpl in H.
  - left. exists g'. split; [exact H|reflexivity].
  - destruct (IH _ H) as [(g & Hg & E) | (r & Hr & E)].
    + destruct (group_add_origin _ _ _ _ Hg) as [E0 | (g0 & Hg0 & E0)].
      * right. exists r0. split; [left; reflexivity|].
        unfold location. congruence.
      * left. exists g0. split; [exact Hg0|congruence].
    + right. exists r. split; [right; exact Hr|exact E].
Qed.

(** X2.  Averaging keeps the locations: every row of the frame has a row
    of the averaged frame at its (X, Y), and every row of the averaged
    frame carries the (X, Y) of a row of the frame. *)
Theorem groupby_mean_keeps_locations (df : dataframe) :
  (forall r, In r df ->
   exists u, In u (groupby_mean df) /\ key_eq (location r) (location u)) /\
  (forall u, In u (groupby_mean df) ->
   exists r, In r df /\ location r = location u).
Proof.
  split.
  - intros r Hr.
    destruct (groups_cover_from df []) as [_ C].
    destruct (C r Hr) as (g & Hg & E).
    exists (group_mean g). split.
    + unfold groupby_mean. apply in_map. exact Hg.
    + rewrite location_group_mean. exact E.
  - intros u Hu. unfold groupby_mean in Hu.
    apply in_map_iff in Hu. destruct Hu as (g & <- & Hg).
    destruct (groups_origin_from df [] g Hg) as [(g0 & [] & _) | (r & Hr & E)].
    exists r. split; [exact Hr|]. rewrite location_group_mean. exact E.
Qed.

Lemma fold_min_lower (xs : list Q) (x y : Q) :
  In y (x :: xs) -> fold_left Qmin xs x <= y.
Proof.
  revert x. induction xs as [|a xs IH]; intros x H.
  - destruct H as [<- | []]. apply Qle_refl.
  - simpl. destruct H as [<- | [<- | H]].
    + eapply Qle_trans; [apply fold_min_le | apply Q.le_min_l].
    + eapply Qle_trans; [apply fold_min_le | apply Q.le_min_r].
    + apply IH. right. exact H.
Qed.

Lemma fold_max_upper (xs : list Q) (x y : Q) :
  In y (x :: xs) -> y <= fold_left Qmax xs x.
Proof.
  revert x. induction xs as [|a xs IH]; intros x H.
  - destruct H as [<- | []]. apply Qle_refl.
  - simpl. destruct H as [<- | [<- | H]].
    + eapply Qle_trans; [apply Q.le_max_l | apply fold_max_ge].
    + eapply Qle_trans; [apply Q.le_max_r | apply fold_max_ge].
    + apply IH. right. exact H.
Qed.

Lemma series_bounds (s : list Q) (lo hi : Q) :
  series_min s = num lo -> series_max s = num hi ->
  forall y, In y s -> lo <= y <= hi.
Proof.
  destruct s as [|x xs]; [discriminate|].
  unfold series_min, series_max, num. intros [= <-] [= <-] y Hy.
  split; [apply fold_min_lower | apply fold_max_upper]; exact Hy.
Qed.

Lemma size_succ (n : positive) :
  inject_Z (Zpos (Pos.succ n)) == inject_Z (Zpos n) + 1.
Proof.
  rewrite Pos2Z.inj_succ. unfold Z.succ. rewrite inject_Z_plus. reflexivity.
Qed.

Lemma group_add_bounds (lo hi : Q) (k : key) (z : Q) (gs : list group) :
  lo <= z <= hi ->
  (forall k' s n, In (k', (s, n)) gs ->
     inject_Z (Zpos n) * lo <= s <= inject_Z (Zpos n) * hi) ->
  forall k' s n, In (k', (s, n)) (group_add k z gs) ->
     inject_Z (Zpos n) * lo <= s <= inject_Z (Zpos n) * hi.
Proof.
  intros [Hlo Hhi].
  assert (One : inject_Z 1 * lo <= z <= inject_Z 1 * hi).
  { change (inject_Z 1) with 1. rewrite !Qmult_1_l. split; assumption. }
  induction gs as [|[k0 [s0 n0]] rest IH]; intros Hgs k' s n; simpl.
  - intros [[= <- <- <-] | []]. exact One.
  - assert (H0 := Hgs k0 s0 n0 (or_introl eq_refl)).
    assert (Hrest : forall k' s n, In (k', (s, n)) rest ->
              inject_Z (Zpos n) * lo <= s <= inject_Z (Zpos n) * hi)
      by (intros; eapply Hgs; right; eassumption).
    destruct (key_compare k k0).
    + intros [[= <- <- <-] | Hin]; [|eapply Hrest; exact Hin].
      rewrite size_succ, !Qmult_plus_distr_l, !Qmult_1_l.
      split; apply Qplus_le_compat; tauto.
    + intros [[= <- <- <-] | Hin]; [exact One|]. eapply Hgs. exact Hin.
    + intros [[= <- <- <-] | Hin]; [exact H0|]. eapply IH; eassumption.
Qed.

Lemma groups_bounds_from (lo hi : Q) (df : dataframe) (gs : list group) :
  (forall r, In r df -> lo <= col_Z r <= hi) ->
  (forall k' s n, In (k', (s, n)) gs ->
     inject_Z (Zpos n) * lo <= s <= inject_Z (Zpos n) * hi) ->
  forall k' s n,
    In (k', (s, n))
       (fold_left (fun gs r => group_add (col_X r, col_Y r) (col_Z r) gs)
                  df gs) ->
    inject_Z (Zpos n) * lo <= s <= inject_Z (Zpos n) * hi.
Proof.
  revert gs. induction df as [|r df IH]; intros gs Hdf Hgs; simpl.
  - exact Hgs.
  - apply IH.
    + intros r' Hr'. apply Hdf. right. exact Hr'.
    + apply group_add_bounds; [apply Hdf; left; reflexivity | exact Hgs].
Qed.

(** X3.  Averaging stays within the data: every depth of the averaged
    frame lies between the smallest and the largest depth of the frame. *)
Theorem groupby_mean_within_depth_range (df : dataframe) (lo hi : Q) :
  min_z df = num lo -> max_z df = num hi ->
  Forall (fun u => lo <= col_Z u <= hi) (groupby_mean df).
Proof.
  intros Hlo Hhi.
  assert (B : forall r, In r df -> lo <= col_Z r <= hi).
  { intros r Hr. apply (series_bounds (map col_Z df) lo hi Hlo Hhi).
    apply in_map. exact Hr. }
  apply Forall_forall. intros u Hu. unfold groupby_mean in Hu.
  apply in_map_iff in Hu. destruct Hu as ([k [s n]] & <- & Hg).
  assert (G := groups_bounds_from lo hi df [] B
                 (fun _ _ _ (F : In _ []) => match F with end) k s n Hg).
  simpl. assert (Hn : 0 < inject_Z (Zpos n)) by reflexivity.
  split.
  - apply Qle_shift_div_l; [exact Hn|]. rewrite Qmult_comm. apply G.
  - apply Qle_shift_div_r; [exact Hn|]. rewrite Qmult_comm. apply G.
Qed.

Lemma groupby_mean_within_depth_range_witness :
  Forall (fun u => 900 <= col_Z u <= 1100) (groupby_mean repeated_points).
Proof.
  apply (groupby_mean_within_depth_range repeated_points 900 1100);
    reflexivity.
Defined.

Lemma group_add_length_le (k : key) (z : Q) (gs : list group) :
  (length (group_add k z gs) <= S (length gs))%nat.
Proof.
  induction gs as [|[k' [s n]] gs IH]; simpl; [lia|].
  destruct (key_compare k k'); simpl; lia.
Qed.

Lemma groups_length_from (df : dataframe) (gs : list group) :
  (length (fold_left (fun gs r => group_add (col_X r, col_Y r) (col_Z r) gs)
                     df gs) <= length df + length gs)%nat.
Proof.
  revert gs. induction df as [|r df IH]; intro gs; simpl; [lia|].
  pose proof (IH (group_add (col_X r, col_Y r) (col_Z r) gs)).
  pose proof (group_add_length_le (col_X r, col_Y r) (col_Z r) gs). lia.
Qed.

(** X4.  Averaging never adds rows and never empties a frame: the
    averaged frame has at most as many rows as the frame, and has none
    only when the frame has none. *)
Theorem groupby_mean_length (df : dataframe) :
  (length (groupby_mean df) <= length df)%nat /\
  (length (groupby_mean df) = 0%nat <-> length df = 0%nat).
Proof.
  unfold groupby_mean, groups. rewrite length_map.
  pose proof (groups_length_from df []) as U. simpl in U.
  split; [lia|]. split.
  - destruct df as [|r df]; [reflexivity|]. simpl. intro H.
    pose proof (fold_group_add_length df
      (group_add (col_X r, col_Y r) (col_Z r) [])) as L.
    simpl in L. simpl in H. lia.
  - destruct df; [reflexivity|discriminate].
Qed.

(** ** The sample coordinates *)

Lemma linspace_nth (a b : Q) (n i : nat) :
  (i < n)%nat ->
  nth i (linspace a b n) 0
  = a + inject_Z (Z.of_nat i) * ((b - a) / inject_Z (Z.of_nat (n - 1))).
Proof.
  intro Hi. unfold linspace.
  set (f := fun j => a + inject_Z (Z.of_nat j)
                         * ((b - a) / inject_Z (Z.of_nat (n - 1)))).
  rewrite (nth_indep _ 0 (f 0%nat)) by (rewrite length_map, length_seq; exact Hi).
  rewrite map_nth, seq_nth by exact Hi. reflexivity.
Qed.

Lemma count_positive (n : nat) : (2 <= n)%nat -> 0 < inject_Z (Z.of_nat (n - 1)).
Proof.
  intro H. change 0 with (inject_Z 0). rewrite <- Zlt_Qlt. lia.
Qed.

Lemma linspace_sample_bounds (a b : Q) (n i : nat) :
  (2 <= n)%nat -> (i < n)%nat -> a <= b ->
  a <= a + inject_Z (Z.of_nat i) * ((b - a) / inject_Z (Z.of_nat (n - 1)))
  <= b.
Proof.
  intros Hn Hi Hab.
  pose proof (count_positive n Hn) as HN.
  set (N := inject_Z (Z.of_nat (n - 1))) in *.
  assert (HI0 : 0 <= inject_Z (Z.of_nat i))
    by (change 0 with (inject_Z 0); rewrite <- Zle_Qle; lia).
  assert (HIN : inject_Z (Z.of_nat i) <= N)
    by (unfold N; rewrite <- Zle_Qle; lia).
  assert (Hstep : 0 <= (b - a) / N).
  { apply Qle_shift_div_l; [exact HN|]. rewrite Qmult_0_l.
    unfold Qminus. rewrite <- Qle_minus_iff. exact Hab. }
  split.
  - rewrite <- (Qplus_0_r a) at 1. apply Qplus_le_compat; [apply Qle_refl|].
    apply Qmult_le_0_compat; assumption.
  - assert (E : b == a + N * ((b - a) / N)).
    { field. intro Z0. rewrite Z0 in HN. exact (Qlt_irrefl _ HN). }
    rewrite E at 2. apply Qplus_le_compat; [apply Qle_refl|].
    apply Qmult_le_compat_r; assumption.
Qed.

(** X5.  [linspace(start, stop, n)] with [n >= 2] gives [n] samples, the
    first equal to [start] and the last to [stop], consecutive samples
    [(stop - start) / (n - 1)] apart; when [start <= stop] every sample
    lies in [[start, stop]]. *)
Theorem linspace_spans_interval (a b : Q) (n : nat) :
  (2 <= n)%nat ->
  length (linspace a b n) = n /\
  nth 0 (linspace a b n) 0 == a /\
  nth (n - 1) (linspace a b n) 0 == b /\
  (forall i, (S i < n)%nat ->
     nth (S i) (linspace a b n) 0 - nth i (linspace a b n) 0
     == (b - a) / inject_Z (Z.of_nat (n - 1))) /\
  (a <= b -> Forall (fun x => a <= x <= b) (linspace a b n)).
Proof.
  intro Hn. pose proof (count_positive n Hn) as HN.
  assert (Hnz : ~ inject_Z (Z.of_nat (n - 1)) == 0)
    by (intro Z0; rewrite Z0 in HN; exact (Qlt_irrefl _ HN)).
  split; [unfold linspace; now rewrite length_map, length_seq|].
  split; [rewrite linspace_nth by lia; simpl; ring|].
  split; [rewrite linspace_nth by lia; field; exact Hnz|].
  split.
  - intros i Hi. rewrite !linspace_nth by lia.
    rewrite Nat2Z.inj_succ. unfold Z.succ. rewrite inject_Z_plus.
    change (inject_Z 1) with 1. field. exact Hnz.
  - intro Hab. apply Forall_forall. intros x Hx.
    unfold linspace in Hx. apply in_map_iff in Hx.
    destruct Hx as (i & <- & Hi). apply in_seq in Hi.
    apply linspace_sample_bounds; [exact Hn | lia | exact Hab].
Qed.

Lemma linspace_spans_interval_witness :
  length (linspace 100 300 5) = 5%nat /\
  nth 0 (linspace 100 300 5) 0 == 100 /\
  nth (5 - 1) (linspace 100 300 5) 0 == 300 /\
  (forall i, (S i < 5)%nat ->
     nth (S i) (linspace 100 300 5) 0 - nth i (linspace 100 300 5) 0
     == (300 - 100) / inject_Z (Z.of_nat (5 - 1))) /\
  (100 <= 300 -> Forall (fun x => 100 <= x <= 300) (linspace 100 300 5)).
Proof.
  apply (linspace_spans_interval 100 300 5). lia.
Defined.

Lemma flinspace_within (lo hi : Q) (n : nat) :
  (2 <= n)%nat -> lo <= hi ->
  Forall (fun v => exists q, v = num q /\ lo <= q <= hi)
         (flinspace (num lo) (num hi) n).
Proof.
  intros Hn Hle. unfold flinspace, num. apply Forall_map.
  apply Forall_forall. intros x Hx.
  unfold linspace in Hx. apply in_map_iff in Hx.
  destruct Hx as (i & <- & Hi). apply in_seq in Hi.
  eexists; split; [reflexivity|].
  apply linspace_sample_bounds; [exact Hn | lia | exact Hle].
Qed.

Lemma series_extent_ordered (s : list Q) (lo hi : Q) :
  series_min s = num lo -> series_max s = num hi -> lo <= hi.
Proof.
  intros Hlo Hhi. destruct s as [|x xs]; [discriminate|].
  destruct (series_extent (x :: xs)) as (l & h & El & Eh & Hle);
    [discriminate|].
  unfold num in *. congruence.
Qed.

(** X6.  The sample grid of a non-empty frame is a full lattice over the
    bounding box of the data: both coordinate arrays have [ny = 100] rows
    of [nx = 100] nodes, no coordinate is NaN, every x-coordinate lies in
    [[x_min, x_max]] and every y-coordinate in [[y_min, y_max]]. *)
Theorem sample_grid_covers_extent
  (df : dataframe) (x_min x_max y_min y_max : Q) :
  series_min (map col_X df) = num x_min ->
  series_max (map col_X df) = num x_max ->
  series_min (map col_Y df) = num y_min ->
  series_max (map col_Y df) = num y_max ->
  length (fst (sample_grid df)) = ny /\
  length (snd (sample_grid df)) = ny /\
  Forall (fun xs => length xs = nx) (fst (sample_grid df)) /\
  Forall (fun ys => length ys = nx) (snd (sample_grid df)) /\
  Forall (Forall (fun v => exists x, v = num x /\ x_min <= x <= x_max))
         (fst (sample_grid df)) /\
  Forall (Forall (fun v => exists y, v = num y /\ y_min <= y <= y_max))
         (snd (sample_grid df)).
Proof.
  intros Hxl Hxh Hyl Hyh.
  pose proof (series_extent_ordered _ _ _ Hxl Hxh) as Hx.
  pose proof (series_extent_ordered _ _ _ Hyl Hyh) as Hy.
  unfold sample_grid. rewrite Hxl, Hxh, Hyl, Hyh.
  pose proof (flinspace_within x_min x_max 100 ltac:(lia) Hx) as Wx.
  pose proof (flinspace_within y_min y_max 100 ltac:(lia) Hy) as Wy.
  pose proof (flinspace_length (num x_min) (num x_max) 100) as Lx.
  pose proof (flinspace_length (num y_min) (num y_max) 100) as Ly.
  set (xs := flinspace (num x_min) (num x_max) 100) in *.
  set (ys := flinspace (num y_min) (num y_max) 100) in *.
  unfold meshgrid, fst, snd, nx, ny.
  split; [|split; [|split; [|split; [|split]]]].
  - rewrite length_map. exact Ly.
  - rewrite length_map. exact Ly.
  - apply Forall_map, Forall_forall. intros _ _. exact Lx.
  - apply Forall_map, Forall_forall. intros y _. rewrite length_map. exact Lx.
  - apply Forall_map, Forall_forall. intros _ _. exact Wx.
  - apply Forall_map. eapply Forall_impl; [|exact Wy].
    intros v Hv. apply Forall_map, Forall_forall. intros _ _. exact Hv.
Qed.

Lemma sample_grid_covers_extent_witness :
  length (fst (sample_grid demo_points)) = ny /\
  length (snd (sample_grid demo_points)) = ny /\
  Forall (fun xs => length xs = nx) (fst (sample_grid demo_points)) /\
  Forall (fun ys => length ys = nx) (snd (sample_grid demo_points)) /\
  Forall (Forall (fun v => exists x, v = num x /\ 100 <= x <= 300))
         (fst (sample_grid demo_points)) /\
  Forall (Forall (fun v => exists y, v = num y /\ 100 <= y <= 300))
         (snd (sample_grid demo_points)).
Proof.
  apply (sample_grid_covers_extent demo_points 100 300 100 300);
    reflexivity.
Defined.

(** ** More on the volumes *)

Lemma nansum_flat_zero (c : Q) (l : list float) :
  (forall z, In (num z) l -> c <= z) ->
  nansum_flat (map (thickness c) l) == 0.
Proof.
  induction l as [|v l IH]; intro H; simpl; [reflexivity|].
  rewrite IH by (intros z Hz; apply H; right; exact Hz).
  rewrite thickness_contribution. destruct v as [z|]; [|reflexivity].
  assert (Hz : c <= z) by (apply H; left; reflexivity).
  rewrite Q.max_l; [reflexivity|].
  unfold Qminus. apply (Qplus_le_r _ _ z). ring_simplify. exact Hz.
Qed.

Lemma nansum_flat_permutation (l l' : list float) :
  Permutation l l' -> nansum_flat l == nansum_flat l'.
Proof.
  induction 1 as [|v l l' _ IH|v w l|l l' l'' _ IH1 _ IH2]; simpl.
  - reflexivity.
  - rewrite IH. reflexivity.
  - ring.
  - rewrite IH1. exact IH2.
Qed.

Lemma volumes_are_numbers (area : Q) (grid_z : grid float)
      (goc_input woc_input : Q) :
  exists oil,
    vol_gas_cap (num area) grid_z goc_input
    = num (nansum (thick_above goc_input grid_z) * area) /\
    vol_total_res (num area) grid_z woc_input
    = num (nansum (thick_above woc_input grid_z) * area) /\
    vol_oil_zone (num area) grid_z goc_input woc_input = num oil /\
    oil == Qmax 0 (nansum (thick_above woc_input grid_z) * area
                   - nansum (thick_above goc_input grid_z) * area).
Proof.
  destruct (py_max0_num (nansum (thick_above woc_input grid_z) * area
                         - nansum (thick_above goc_input grid_z) * area))
    as (o & Eo & Ho & _).
  exists o. repeat split; [exact Eo | exact Ho].
Qed.

(** X7.  With contacts in order ([GOC <= WOC]) and a non-negative cell
    area the clamp of line 174 never acts: the gas cap is at most the
    total reservoir and the oil zone is exactly their difference, so gas
    cap and oil zone add up to the total; when [GOC = WOC] the gas cap is
    the whole reservoir and the oil zone is 0. *)
Theorem ordered_contacts_split_the_reservoir
  (area : Q) (grid_z : grid float) (goc_input woc_input : Q) :
  0 <= area -> goc_input <= woc_input ->
  exists gasCap oilZone totalReservoir : Q,
    vol_gas_cap (num area) grid_z goc_input = num gasCap /\
    vol_oil_zone (num area) grid_z goc_input woc_input = num oilZone /\
    vol_total_res (num area) grid_z woc_input = num totalReservoir /\
    gasCap <= totalReservoir /\
    gasCap + oilZone == totalReservoir /\
    (goc_input == woc_input -> gasCap == totalReservoir /\ oilZone == 0).
Proof.
  intros Ha Hord.
  destruct (volumes_are_numbers area grid_z goc_input woc_input)
    as (o & Eg & Et & Eo & Ho).
  set (g := nansum (thick_above goc_input grid_z) * area) in *.
  set (t := nansum (thick_above woc_input grid_z) * area) in *.
  assert (Hgt : g <= t).
  { unfold g, t. rewrite !nansum_thick_above.
    apply Qmult_le_compat_r; [|exact Ha].
    apply nansum_flat_monotone. exact Hord. }
  assert (Ho' : o == t - g).
  { rewrite Ho. apply Q.max_r.
    unfold Qminus. rewrite <- Qle_minus_iff. exact Hgt. }
  exists g, o, t. repeat split; try assumption.
  - rewrite Ho'. ring.
  - apply Qle_antisym; [exact Hgt|].
    unfold g, t. rewrite !nansum_thick_above.
    apply Qmult_le_compat_r; [|exact Ha].
    apply nansum_flat_monotone. rewrite H. apply Qle_refl.
  - rewrite Ho'. assert (E : g == t).
    { apply Qle_antisym; [exact Hgt|].
      unfold g, t. rewrite !nansum_thick_above.
      apply Qmult_le_compat_r; [|exact Ha].
      apply nansum_flat_monotone. rewrite H. apply Qle_refl. }
    rewrite E. ring.
Qed.

Lemma ordered_contacts_witness :
  exists gasCap oilZone totalReservoir : Q,
    vol_gas_cap (num 4) sample_surface 1090 = num gasCap /\
    vol_oil_zone (num 4) sample_surface 1090 1210 = num oilZone /\
    vol_total_res (num 4) sample_surface 1210 = num totalReservoir /\
    gasCap <= totalReservoir /\
    gasCap + oilZone == totalReservoir /\
    (1090 == 1210 -> gasCap == totalReservoir /\ oilZone == 0).
Proof.
  apply (ordered_contacts_split_the_reservoir 4 sample_surface 1090 1210).
  - discriminate.
  - discriminate.
Defined.

(** X8.  When no defined depth of the surface is above WOC ([WOC <= Z] at
    every defined node) the total reservoir volume is 0, and with contacts
    in order the gas cap and the oil zone are 0 as well. *)
Theorem no_rock_above_woc_no_volume
  (area : Q) (grid_z : grid float) (goc_input woc_input : Q) :
  (forall z, In (num z) (concat grid_z) -> woc_input <= z) ->
  exists gasCap oilZone totalReservoir : Q,
    vol_gas_cap (num area) grid_z goc_input = num gasCap /\
    vol_oil_zone (num area) grid_z goc_input woc_input = num oilZone /\
    vol_total_res (num area) grid_z woc_input = num totalReservoir /\
    totalReservoir == 0 /\
    (goc_input <= woc_input -> gasCap == 0 /\ oilZone == 0).
Proof.
  intro Hbelow.
  destruct (volumes_are_numbers area grid_z goc_input woc_input)
    as (o & Eg & Et & Eo & Ho).
  set (g := nansum (thick_above goc_input grid_z) * area) in *.
  set (t := nansum (thick_above woc_input grid_z) * area) in *.
  assert (Ht : t == 0).
  { unfold t. rewrite nansum_thick_above, nansum_flat_zero by exact Hbelow.
    ring. }
  exists g, o, t. repeat split; try assumption.
  - unfold g. rewrite nansum_thick_above, nansum_flat_zero; [ring|].
    intros z Hz. eapply Qle_trans; [exact H | apply Hbelow, Hz].
  - rewrite Ho, Ht.
    assert (Hg : g == 0).
    { unfold g. rewrite nansum_thick_above, nansum_flat_zero; [ring|].
      intros z Hz. eapply Qle_trans; [exact H | apply Hbelow, Hz]. }
    rewrite Hg. reflexivity.
Qed.

Lemma no_rock_above_woc_witness :
  exists gasCap oilZone totalReservoir : Q,
    vol_gas_cap (num 4) sample_surface 800 = num gasCap /\
    vol_oil_zone (num 4) sample_surface 800 850 = num oilZone /\
    vol_total_res (num 4) sample_surface 850 = num totalReservoir /\
    totalReservoir == 0 /\
    (800 <= 850 -> gasCap == 0 /\ oilZone == 0).
Proof.
  apply (no_rock_above_woc_no_volume 4 sample_surface 800 850).
  intros z Hz. simpl in Hz. unfold num, NaN in Hz.
  repeat (destruct Hz as [Hz|Hz];
          [try discriminate Hz; injection Hz as <-; discriminate|]).
  contradiction.
Defined.

(** X9.  For a non-negative cell area the volume above a contact grows
    with the contact: lowering WOC (a larger depth) never reduces the total
    reservoir volume, and likewise for GOC and the gas cap. *)
Theorem volume_above_contact_is_monotone
  (area : Q) (grid_z : grid float) (contact contact' : Q) :
  0 <= area -> contact <= contact' ->
  exists v v' : Q,
    vol_total_res (num area) grid_z contact = num v /\
    vol_total_res (num area) grid_z contact' = num v' /\
    vol_gas_cap (num area) grid_z contact = num v /\
    vol_gas_cap (num area) grid_z contact' = num v' /\
    v <= v'.
Proof.
  intros Ha Hc.
  exists (nansum (thick_above contact grid_z) * area),
         (nansum (thick_above contact' grid_z) * area).
  repeat split.
  rewrite !nansum_thick_above.
  apply Qmult_le_compat_r; [|exact Ha].
  apply nansum_flat_monotone. exact Hc.
Qed.

Lemma volume_above_contact_witness :
  exists v v' : Q,
    vol_total_res (num 4) sample_surface 1000 = num v /\
    vol_total_res (num 4) sample_surface 1210 = num v' /\
    vol_gas_cap (num 4) sample_surface 1000 = num v /\
    vol_gas_cap (num 4) sample_surface 1210 = num v' /\
    v <= v'.
Proof.
  apply (volume_above_contact_is_monotone 4 sample_surface 1000 1210);
    discriminate.
Defined.

(** X10.  The volumes depend on the nodes of the surface only as a
    collection: two surfaces whose nodes are a rearrangement of one another
    (another order, another shape) give equal volumes. *)
Theorem volumes_independent_of_node_order
  (area : Q) (grid_z grid_z' : grid float) (goc_input woc_input : Q) :
  Permutation (concat grid_z) (concat grid_z') ->
  exists g o t g' o' t' : Q,
    vol_gas_cap (num area) grid_z goc_input = num g /\
    vol_oil_zone (num area) grid_z goc_input woc_input = num o /\
    vol_total_res (num area) grid_z woc_input = num t /\
    vol_gas_cap (num area) grid_z' goc_input = num g' /\
    vol_oil_zone (num area) grid_z' goc_input woc_input = num o' /\
    vol_total_res (num area) grid_z' woc_input = num t' /\
    g == g' /\ o == o' /\ t == t'.
Proof.
  intro P.
  destruct (volumes_are_numbers area grid_z goc_input woc_input)
    as (o & Eg & Et & Eo & Ho).
  destruct (volumes_are_numbers area grid_z' goc_input woc_input)
    as (o' & Eg' & Et' & Eo' & Ho').
  assert (S : forall c,
             nansum (thick_above c grid_z) == nansum (thick_above c grid_z')).
  { intro c. rewrite !nansum_thick_above.
    apply nansum_flat_permutation, Permutation_map, P. }
  exists (nansum (thick_above goc_input grid_z) * area), o,
         (nansum (thick_above woc_input grid_z) * area),
         (nansum (thick_above goc_input grid_z') * area), o',
         (nansum (thick_above woc_input grid_z') * area).
  split; [exact Eg|]. split; [exact Eo|]. split; [exact Et|].
  split; [exact Eg'|]. split; [exact Eo'|]. split; [exact Et'|].
  split; [|split].
  - rewrite (S goc_input). reflexivity.
  - rewrite Ho, Ho', (S goc_input), (S woc_input). reflexivity.
  - rewrite (S woc_input). reflexivity.
Qed.

Lemma volumes_independent_of_node_order_witness :
  exists g o t g' o' t' : Q,
    vol_gas_cap (num 4) sample_surface 1090 = num g /\
    vol_oil_zone (num 4) sample_surface 1090 1210 = num o /\
    vol_total_res (num 4) sample_surface 1210 = num t /\
    vol_gas_cap (num 4) [[num 900; num 1250; NaN; num 1000]] 1090 = num g' /\
    vol_oil_zone (num 4) [[num 900; num 1250; NaN; num 1000]] 1090 1210
    = num o' /\
    vol_total_res (num 4) [[num 900; num 1250; NaN; num 1000]] 1210 = num t' /\
    g == g' /\ o == o' /\ t == t'.
Proof.
  apply (volumes_independent_of_node_order
           4 sample_surface [[num 900; num 1250; NaN; num 1000]] 1090 1210).
  exact (Permutation_rev [num 1000; NaN; num 1250; num 900]).
Defined.

(** ** More on the classification *)

(** X12.  With inverted contacts ([GOC > WOC]) the middle condition can
    never hold, so no point is labelled Oil Zone: a point is Gas Cap when
    [Z < GOC] and Aquifer otherwise. *)
Theorem inverted_contacts_leave_no_oil_zone (goc_input woc_input z : Q) :
  woc_input < goc_input ->
  (fluid_of goc_input woc_input z = Oil_Zone -> False) /\
  (z < goc_input -> fluid_of goc_input woc_input z = Gas_Cap) /\
  (goc_input <= z -> fluid_of goc_input woc_input z = Aquifer).
Proof.
  intro Hinv.
  assert (G : z < goc_input -> fluid_of goc_input woc_input z = Gas_Cap)
    by apply fluid_of_gas.
  assert (A : goc_input <= z -> fluid_of goc_input woc_input z = Aquifer).
  { intro H. apply fluid_of_aquifer; [exact H|].
    eapply Qlt_le_trans; eassumption. }
  split; [|split; assumption].
  destruct (Qlt_le_dec z goc_input) as [H | H].
  - rewrite (G H). discriminate.
  - rewrite (A H). discriminate.
Qed.

Lemma inverted_contacts_no_oil_witness :
  (fluid_of 1100 1000 1050 = Oil_Zone -> False) /\
  (1050 < 1100 -> fluid_of 1100 1000 1050 = Gas_Cap) /\
  (1100 <= 1050 -> fluid_of 1100 1000 1050 = Aquifer).
Proof.
  apply (inverted_contacts_leave_no_oil_zone 1100 1000 1050). reflexivity.
Defined.

(** X13.  The classification follows depth, whatever the contacts: a
    deeper point is never put in a shallower zone than a shallower point
    (Gas Cap above Oil Zone above Aquifer), and points of equal depth get
    the same label. *)
Theorem classification_follows_depth (goc_input woc_input z z' : Q) :
  z <= z' ->
  (zone_rank (fluid_of goc_input woc_input z)
   <= zone_rank (fluid_of goc_input woc_input z'))%nat /\
  (z == z' -> fluid_of goc_input woc_input z = fluid_of goc_input woc_input z').
Proof.
  intro Hle.
  assert (M : forall a b, a <= b ->
            (zone_rank (fluid_of goc_input woc_input a)
             <= zone_rank (fluid_of goc_input woc_input b))%nat).
  { intros a b Hab.
    destruct (Qlt_le_dec a goc_input) as [Ha | Ha].
    - rewrite (fluid_of_gas _ _ _ Ha). simpl. lia.
    - assert (Hb : goc_input <= b) by (eapply Qle_trans; eassumption).
      destruct (Qlt_le_dec woc_input a) as [Wa | Wa].
      + rewrite (fluid_of_aquifer _ _ _ Ha Wa).
        rewrite (fluid_of_aquifer _ _ b Hb); [simpl; lia|].
        eapply Qlt_le_trans; eassumption.
      + rewrite (fluid_of_oil _ _ _ Ha Wa).
        destruct (Qlt_le_dec woc_input b) as [Wb | Wb].
        * rewrite (fluid_of_aquifer _ _ _ Hb Wb). simpl. lia.
        * rewrite (fluid_of_oil _ _ _ Hb Wb). simpl. lia. }
  split; [apply M, Hle|].
  intro E.
  assert (R : zone_rank (fluid_of goc_input woc_input z)
              = zone_rank (fluid_of goc_input woc_input z')).
  { apply Nat.le_antisymm; apply M; rewrite E; apply Qle_refl. }
  destruct (fluid_of goc_input woc_input z),
           (fluid_of goc_input woc_input z'); simpl in R; congruence.
Qed.

Lemma classification_follows_depth_witness :
  (zone_rank (fluid_of 1090 1210 1000)
   <= zone_rank (fluid_of 1090 1210 1150))%nat /\
  (1000 == 1150 -> fluid_of 1090 1210 1000 = fluid_of 1090 1210 1150).
Proof.
  apply (classification_follows_depth 1090 1210 1000 1150). discriminate.
Defined.

(** ** The scatter traces *)

Lemma subset_cons (r : row) (df : dataframe) (l : fluid) (ls : list fluid)
      (f : fluid) :
  subset (r :: df) (l :: ls) f
  = if fluid_eqb l f then r :: subset df ls f else subset df ls f.
Proof.
  unfold subset. simpl. destruct (fluid_eqb l f); reflexivity.
Qed.

Lemma fluid_eqb_eq (a b : fluid) : fluid_eqb a b = true <-> a = b.
Proof. destruct a, b; simpl; split; congruence. Qed.

Lemma subset_labels (df : dataframe) (goc_input woc_input : Q) (f : fluid)
      (r : row) :
  In r (subset df (classify df goc_input woc_input) f) ->
  In r df /\ fluid_of goc_input woc_input (col_Z r) = f.
Proof.
  induction df as [|r0 df IH]; [contradiction|].
  unfold classify. simpl map. fold (classify df goc_input woc_input).
  rewrite subset_cons.
  destruct (fluid_eqb (fluid_of goc_input woc_input (col_Z r0)) f) eqn:E.
  - intros [<- | H].
    + split; [left; reflexivity | apply fluid_eqb_eq, E].
    + destruct (IH H). split; [right|]; assumption.
  - intro H. destruct (IH H). split; [right|]; assumption.
Qed.

Lemma subsets_partition (df : dataframe) (goc_input woc_input : Q) :
  Permutation
    (subset df (classify df goc_input woc_input) Gas_Cap
     ++ subset df (classify df goc_input woc_input) Oil_Zone
     ++ subset df (classify df goc_input woc_input) Aquifer)
    df.
Proof.
  induction df as [|r df IH]; [constructor|].
  unfold classify. simpl map. fold (classify df goc_input woc_input).
  rewrite !subset_cons.
  destruct (fluid_of_known goc_input woc_input (col_Z r)) as [E | [E | E]];
    rewrite E; simpl.
  - apply perm_skip, IH.
  - apply Permutation_sym, Permutation_cons_app, Permutation_sym, IH.
  - apply Permutation_sym. rewrite app_assoc.
    apply Permutation_cons_app. rewrite <- app_assoc.
    apply Permutation_sym, IH.
Qed.

Lemma concat_nonempty_traces (ts : list (fluid * dataframe)) :
  concat (map snd
            (filter (fun t => match snd t with [] => false | _ => true end) ts))
  = concat (map snd ts).
Proof.
  induction ts as [|[f rows] ts IH]; [reflexivity|].
  simpl. destruct rows; simpl; rewrite IH; reflexivity.
Qed.

(** X14.  The scatter traces of the 2D map split the frame: every point
    is drawn in exactly one trace (the rows of the traces together are a
    rearrangement of the frame), each trace holds only points of its own
    label, no trace is empty, and there are at most three traces. *)
Theorem scatter_traces_partition_the_frame
  (df : dataframe) (goc_input woc_input : Q) :
  Permutation (concat (map snd (scatter_traces df goc_input woc_input))) df /\
  Forall (fun t =>
            (length (snd t) = 0%nat -> False) /\
            Forall (fun r => fluid_of goc_input woc_input (col_Z r) = fst t)
                   (snd t))
         (scatter_traces df goc_input woc_input) /\
  (length (scatter_traces df goc_input woc_input) <= 3)%nat.
Proof.
  split; [|split].
  - unfold scatter_traces. rewrite concat_nonempty_traces.
    simpl. rewrite app_nil_r. apply subsets_partition.
  - unfold scatter_traces. apply Forall_forall. intros [f rows] Hin.
    apply filter_In in Hin. destruct Hin as [Hin Hne]. simpl in Hne.
    split; [destruct rows; [discriminate|simpl; lia]|].
    apply in_map_iff in Hin. destruct Hin as (f' & [= <- <-] & _).
    apply Forall_forall. intros r Hr. simpl.
    apply (subset_labels df goc_input woc_input f' r Hr).
  - unfold scatter_traces.
    eapply Nat.le_trans; [apply filter_length_le|].
    rewrite length_map. simpl. lia.
Qed.

(** ** The exported table *)

Lemma grid_df_flat (cx cy cz : list float) :
  Forall is_defined cx -> Forall is_defined cy ->
  length cx = length cz -> length cy = length cz ->
  map third (filter_map dropna (combine (combine cx cy) cz))
  = filter_map (fun v : float => v) cz.
Proof.
  revert cx cy. induction cz as [|z cz IH]; intros cx cy Hx Hy Lx Ly.
  - destruct cx; [|discriminate]. reflexivity.
  - destruct cx as [|x cx]; [discriminate|].
    destruct cy as [|y cy]; [discriminate|].
    inversion Hx as [|? ? [qx ->] Hx']; subst.
    inversion Hy as [|? ? [qy ->] Hy']; subst.
    simpl in Lx, Ly. injection Lx as Lx. injection Ly as Ly.
    simpl. unfold num. destruct z as [qz|]; simpl.
    + f_equal. apply IH; assumption.
    + apply IH; assumption.
Qed.

Lemma filter_map_length {A B : Type} (f : A -> option B) (l : list A) :
  (length (filter_map f l) <= length l)%nat.
Proof.
  induction l as [|a l IH]; simpl; [lia|].
  destruct (f a); simpl; lia.
Qed.

(** X15.  The exported grid table drops exactly the nodes without a depth
    estimate: when the coordinate arrays are fully defined and have as many
    nodes as the surface, the Z column of the table is the list of defined
    depths of the surface, in node order, and no row is added. *)
Theorem grid_df_keeps_defined_nodes (gx gy gz : grid float) :
  Forall is_defined (concat gx) -> Forall is_defined (concat gy) ->
  node_count gx = node_count gz -> node_count gy = node_count gz ->
  map third (grid_df gx gy gz) = defined_nodes gz /\
  length (grid_df gx gy gz) = length (defined_nodes gz) /\
  (length (grid_df gx gy gz) <= node_count gz)%nat.
Proof.
  intros Hx Hy Lx Ly. unfold node_count in *.
  assert (E : map third (grid_df gx gy gz) = defined_nodes gz)
    by (apply grid_df_flat; assumption).
  split; [exact E|].
  assert (L : length (grid_df gx gy gz) = length (defined_nodes gz))
    by (rewrite <- E, length_map; reflexivity).
  split; [exact L|]. rewrite L. apply filter_map_length.
Qed.

Lemma grid_df_witness :
  map third (grid_df [[num 0; num 1]; [num 0; num 1]]
                     [[num 5; num 5]; [num 6; num 6]] sample_surface)
  = defined_nodes sample_surface /\
  length (grid_df [[num 0; num 1]; [num 0; num 1]]
                  [[num 5; num 5]; [num 6; num 6]] sample_surface)
  = length (defined_nodes sample_surface) /\
  (length (grid_df [[num 0; num 1]; [num 0; num 1]]
                   [[num 5; num 5]; [num 6; num 6]] sample_surface)
   <= node_count sample_surface)%nat.
Proof.
  apply (grid_df_keeps_defined_nodes
           [[num 0; num 1]; [num 0; num 1]]
           [[num 5; num 5]; [num 6; num 6]] sample_surface).
  - repeat constructor; eexists; reflexivity.
  - repeat constructor; eexists; reflexivity.
  - reflexivity.
  - reflexivity.
Defined.

(** ** How a run ends *)

Lemma sidebar_trace_no_call (df : dataframe) (goc_input woc_input : Q) :
  filter is_griddata_call (sidebar_trace df goc_input woc_input) = [].
Proof.
  unfold sidebar_trace. destruct df; [reflexivity|].
  destruct (Qltb woc_input goc_input); reflexivity.
Qed.

(** X16.  A run ends without an exception exactly when the frame is
    empty, or has at least 4 entries, the interpolation returned a surface
    and the contour size [(max_z - min_z)/10] is not negative.  Otherwise
    the exception is [NameError] on [grid_z] for a frame of 1 to 3 entries
    and, for a larger frame, the one the interpolation ended with or, when
    it returned, the [ValueError] of the contour. *)
Theorem run_ends_normally_iff
  (griddata : list Q * list Q -> list Q -> grid float * grid float ->
              method -> exn + grid float)
  (dt : dtypes) (df : dataframe) (goc_input woc_input : Q) :
  (outcome (main griddata dt df goc_input woc_input) = inr tt <->
   length df = 0%nat \/
   ((4 <= length df)%nat /\
    (exists s, outcome (compute_surface griddata df) = inr s) /\
    fltb (contour_size dt df) (num 0) = false)) /\
  (forall e,
     outcome (main griddata dt df goc_input woc_input) = inl e ->
     ((0 < length df < 4)%nat /\ e = NameError "grid_z") \/
     ((4 <= length df)%nat /\
      outcome (compute_surface griddata df) = inl e) \/
     ((4 <= length df)%nat /\
      (exists s, outcome (compute_surface griddata df) = inr s) /\
      fltb (contour_size dt df) (num 0) = true /\
      e = ValueError "contours.size")).
Proof.
  frame_size df.
  - destruct df; [|discriminate]. split.
    + split; [intros _; left; reflexivity | reflexivity].
    + intros e H. discriminate H.
  - rewrite main_few_points by exact Hsize. unfold outcome; simpl snd. split.
    + split; [discriminate|]. intros [H | [H _]]; lia.
    + intros e [= <-]. left. split; [exact Hsize|reflexivity].
  - destruct (compute_surface griddata df) as [t [e | [[gx gy] gz]]] eqn:Es.
    + rewrite (main_interpolation_raises griddata dt df _ _ t e Hsize Es).
      unfold outcome; simpl snd. split.
      * split; [discriminate|].
        intros [H | [_ [[s H] _]]]; [lia|discriminate H].
      * intros e' [= <-]. right. left. split; [exact Hsize|reflexivity].
    + destruct (fltb (contour_size dt df) (num 0)) eqn:Ec.
      * rewrite (main_contour_refused griddata dt df _ _ t gx gy gz
                   Hsize Es Ec).
        unfold outcome; simpl snd. split.
        -- split; [discriminate|].
           intros [H | [_ [_ H]]]; [lia|discriminate H].
        -- intros e [= <-]. right. right.
           split; [exact Hsize|]. split; [eexists; reflexivity|].
           split; reflexivity.
      * rewrite (main_with_surface griddata dt df _ _ t gx gy gz Hsize Es Ec).
        unfold outcome; simpl snd. split.
        -- split; [|reflexivity]. intros _. right. split; [exact Hsize|].
           split; [eexists; reflexivity|reflexivity].
        -- intros e H. discriminate H.
Qed.

(** X17.  The fallback of lines 144-147, seen from the page, for a frame
    of at least 4 entries.  When the smooth method returns, the linear one
    is never called and the volumes shown are those of its surface.  When
    the smooth method raises, the linear one is called with the same points
    and values, and when it returns the volumes shown are those of its
    surface.  In both cases the 3D chart of that surface is shown and the
    run ends normally unless the contour size is negative.  When both
    methods raise, the run ends with the exception of the linear call and
    shows nothing computed from a surface. *)
Theorem interpolation_fallback_protocol
  (griddata : list Q * list Q -> list Q -> grid float * grid float ->
              method -> exn + grid float)
  (dt : dtypes) (df : dataframe) (goc_input woc_input : Q) :
  (4 <= length df)%nat ->
  (forall z,
     griddata (query_points df) (query_values df) (sample_grid df) cubic
     = inr z ->
     filter is_griddata_call
            (trace (main griddata dt df goc_input woc_input))
     = [griddata_call cubic (query_points df) (query_values df)] /\
     In (st_metric_volumes
           (vol_gas_cap (cell_area dt df) z goc_input)
           (vol_oil_zone (cell_area dt df) z goc_input woc_input)
           (vol_total_res (cell_area dt df) z woc_input))
        (trace (main griddata dt df goc_input woc_input)) /\
     (fltb (contour_size dt df) (num 0) = false ->
      In (st_plotly_chart_3d z)
         (trace (main griddata dt df goc_input woc_input)) /\
      outcome (main griddata dt df goc_input woc_input) = inr tt)) /\
  (forall e z,
     griddata (query_points df) (query_values df) (sample_grid df) cubic
     = inl e ->
     griddata (query_points df) (query_values df) (sample_grid df) linear
     = inr z ->
     filter is_griddata_call
            (trace (main griddata dt df goc_input woc_input))
     = [griddata_call cubic (query_points df) (query_values df);
        griddata_call linear (query_points df) (query_values df)] /\
     In (st_metric_volumes
           (vol_gas_cap (cell_area dt df) z goc_input)
           (vol_oil_zone (cell_area dt df) z goc_input woc_input)
           (vol_total_res (cell_area dt df) z woc_input))
        (trace (main griddata dt df goc_input woc_input)) /\
     (fltb (contour_size dt df) (num 0) = false ->
      In (st_plotly_chart_3d z)
         (trace (main griddata dt df goc_input woc_input)) /\
      outcome (main griddata dt df goc_input woc_input) = inr tt)) /\
  (forall e e',
     griddata (query_points df) (query_values df) (sample_grid df) cubic
     = inl e ->
     griddata (query_points df) (query_values df) (sample_grid df) linear
     = inl e' ->
     filter is_griddata_call
            (trace (main griddata dt df goc_input woc_input))
     = [griddata_call cubic (query_points df) (query_values df);
        griddata_call linear (query_points df) (query_values df)] /\
     outcome (main griddata dt df goc_input woc_input) = inl e' /\
     surface_produced (main griddata dt df goc_input woc_input) = false).
Proof.
  intro Hlen.
  pose proof (compute_surface_run griddata df) as R. cbv zeta in R.
  fold (query_points df) in R. fold (query_values df) in R.
  pose proof (sidebar_trace_no_call df goc_input woc_input) as Q0.
  destruct (sidebar_trace_quiet df goc_input woc_input) as [_ Q1].
  assert (K : forall t z,
    compute_surface griddata df
    = (t, inr (fst (sample_grid df), snd (sample_grid df), z)) ->
    filter is_griddata_call (trace (main griddata dt df goc_input woc_input))
    = filter is_griddata_call t /\
    In (st_metric_volumes
          (vol_gas_cap (cell_area dt df) z goc_input)
          (vol_oil_zone (cell_area dt df) z goc_input woc_input)
          (vol_total_res (cell_area dt df) z woc_input))
       (trace (main griddata dt df goc_input woc_input)) /\
    (fltb (contour_size dt df) (num 0) = false ->
     In (st_plotly_chart_3d z)
        (trace (main griddata dt df goc_input woc_input)) /\
     outcome (main griddata dt df goc_input woc_input) = inr tt)).
  { intros t z Es. split; [|split].
    - destruct (fltb (contour_size dt df) (num 0)) eqn:Ec.
      + rewrite (main_contour_refused griddata dt df _ _ _ _ _ _ Hlen Es Ec).
        unfold trace; simpl fst.
        rewrite !filter_app, Q0. simpl. rewrite app_nil_r. reflexivity.
      + rewrite (main_with_surface griddata dt df _ _ _ _ _ _ Hlen Es Ec).
        unfold trace; simpl fst.
        rewrite !filter_app, Q0. simpl. rewrite app_nil_r. reflexivity.
    - apply (metrics_shown griddata dt df _ _ _ _ _ _ Hlen Es).
    - intro Ec.
      rewrite (main_with_surface griddata dt df _ _ _ _ _ _ Hlen Es Ec).
      unfold trace, outcome; simpl fst; simpl snd.
      split; [|reflexivity].
      apply in_or_app. right. apply in_or_app. right. simpl. tauto. }
  split; [|split].
  - intros z Ec. rewrite Ec in R. apply (K _ _ R).
  - intros e z Ec El. rewrite Ec, El in R. apply (K _ _ R).
  - intros e e' Ec El. rewrite Ec, El in R.
    unfold surface_produced.
    rewrite (main_interpolation_raises griddata dt df _ _ _ _ Hlen R).
    unfold trace, outcome; simpl fst; simpl snd.
    rewrite filter_app, Q0, existsb_app, Q1. repeat split.
Qed.

Lemma interpolation_fallback_witness :
  (forall z,
     griddata_linear_only (num 1000) (query_points demo_points)
       (query_values demo_points) (sample_grid demo_points) cubic
     = inr z ->
     filter is_griddata_call
       (trace (main (griddata_linear_only (num 1000)) int_dtypes demo_points
                    1090 1210))
     = [griddata_call cubic (query_points demo_points)
          (query_values demo_points)] /\
     In (st_metric_volumes
           (vol_gas_cap (cell_area int_dtypes demo_points) z 1090)
           (vol_oil_zone (cell_area int_dtypes demo_points) z 1090 1210)
           (vol_total_res (cell_area int_dtypes demo_points) z 1210))
        (trace (main (griddata_linear_only (num 1000)) int_dtypes demo_points
                     1090 1210)) /\
     (fltb (contour_size int_dtypes demo_points) (num 0) = false ->
      In (st_plotly_chart_3d z)
         (trace (main (griddata_linear_only (num 1000)) int_dtypes
                      demo_points 1090 1210)) /\
      outcome (main (griddata_linear_only (num 1000)) int_dtypes demo_points
                    1090 1210) = inr tt)) /\
  (forall e z,
     griddata_linear_only (num 1000) (query_points demo_points)
       (query_values demo_points) (sample_grid demo_points) cubic
     = inl e ->
     griddata_linear_only (num 1000) (query_points demo_points)
       (query_values demo_points) (sample_grid demo_points) linear
     = inr z ->
     filter is_griddata_call
       (trace (main (griddata_linear_only (num 1000)) int_dtypes demo_points
                    1090 1210))
     = [griddata_call cubic (query_points demo_points)
          (query_values demo_points);
        griddata_call linear (query_points demo_points)
          (query_values demo_points)] /\
     In (st_metric_volumes
           (vol_gas_cap (cell_area int_dtypes demo_points) z 1090)
           (vol_oil_zone (cell_area int_dtypes demo_points) z 1090 1210)
           (vol_total_res (cell_area int_dtypes demo_points) z 1210))
        (trace (main (griddata_linear_only (num 1000)) int_dtypes demo_points
                     1090 1210)) /\
     (fltb (contour_size int_dtypes demo_points) (num 0) = false ->
      In (st_plotly_chart_3d z)
         (trace (main (griddata_linear_only (num 1000)) int_dtypes
                      demo_points 1090 1210)) /\
      outcome (main (griddata_linear_only (num 1000)) int_dtypes demo_points
                    1090 1210) = inr tt)) /\
  (forall e e',
     griddata_linear_only (num 1000) (query_points demo_points)
       (query_values demo_points) (sample_grid demo_points) cubic
     = inl e ->
     griddata_linear_only (num 1000) (query_points demo_points)
       (query_values demo_points) (sample_grid demo_points) linear
     = inl e' ->
     filter is_griddata_call
       (trace (main (griddata_linear_only (num 1000)) int_dtypes demo_points
                    1090 1210))
     = [griddata_call cubic (query_points demo_points)
          (query_values demo_points);
        griddata_call linear (query_points demo_points)
          (query_values demo_points)] /\
     outcome (main (griddata_linear_only (num 1000)) int_dtypes demo_points
                   1090 1210) = inl e' /\
     surface_produced
       (main (griddata_linear_only (num 1000)) int_dtypes demo_points
             1090 1210) = false).
Proof.
  apply (interpolation_fallback_protocol
           (griddata_linear_only (num 1000)) int_dtypes demo_points 1090 1210).
  simpl. lia.
Defined.

(** ** The extent of a column *)

Lemma Qmin_choice (x y : Q) : Qmin x y = x \/ Qmin x y = y.
Proof.
  unfold Qmin, GenericMinMax.gmin. destruct (x ?= y); auto.
Qed.

Lemma Qmax_choice (x y : Q) : Qmax x y = x \/ Qmax x y = y.
Proof.
  unfold Qmax, GenericMinMax.gmax. destruct (x ?= y); auto.
Qed.

Lemma fold_min_in (xs : list Q) (x : Q) : In (fold_left Qmin xs x) (x :: xs).
Proof.
  revert x. induction xs as [|a xs IH]; intro x; simpl; [left; reflexivity|].
  destruct (IH (Qmin x a)) as [E | H].
  - rewrite <- E.
    destruct (Qmin_choice x a) as [Em | Em]; rewrite Em;
      [left | right; left]; reflexivity.
  - right. right. exact H.
Qed.

Lemma fold_max_in (xs : list Q) (x : Q) : In (fold_left Qmax xs x) (x :: xs).
Proof.
  revert x. induction xs as [|a xs IH]; intro x; simpl; [left; reflexivity|].
  destruct (IH (Qmax x a)) as [E | H].
  - rewrite <- E.
    destruct (Qmax_choice x a) as [Em | Em]; rewrite Em;
      [left | right; left]; reflexivity.
  - right. right. exact H.
Qed.

Lemma wrap64_in_range (z : Z) :
  (- 2 ^ 63 <= z < 2 ^ 63)%Z -> wrap64 z = z.
Proof.
  intro H. unfold wrap64. rewrite Z.mod_small; lia.
Qed.

Lemma wrap64_above_range (z : Z) :
  (2 ^ 63 <= z < 2 ^ 64)%Z -> wrap64 z = (z - 2 ^ 64)%Z.
Proof.
  intro H. unfold wrap64.
  replace (z + 2 ^ 63)%Z with ((z - 2 ^ 63) + 1 * 2 ^ 64)%Z by lia.
  rewrite Z.mod_add by lia. rewrite Z.mod_small; lia.
Qed.

(** X21.  The extent [s.max() - s.min()] of a non-empty column, as the
    script computes it for the cell size, the initial contacts and the
    contour size.  For a [float64] column it is [max - min].  For an
    [int64] column it is [max - min] as long as this is below [2^63];
    from [2^63] on the subtraction wraps around and the extent is
    [max - min - 2^64], a negative number. *)
Theorem column_extent (dt : dtype) (s : list Q) (lo hi : Q) :
  series_min s = num lo -> series_max s = num hi -> column_ok dt s ->
  exists e,
    extent dt s = num e /\
    (dt = float64 -> e == hi - lo) /\
    (dt = int64 -> hi - lo < inject_Z (2 ^ 63) -> e == hi - lo /\ 0 <= e) /\
    (dt = int64 -> inject_Z (2 ^ 63) <= hi - lo ->
     e == hi - lo - inject_Z (2 ^ 64) /\ e < 0).
Proof.
  intros Hlo Hhi Hok.
  pose proof (series_extent_ordered s lo hi Hlo Hhi) as Hle.
  unfold extent. rewrite Hlo, Hhi. destruct dt; simpl scalar_sub.
  - destruct s as [|x xs]; [discriminate|].
    simpl in Hok. unfold series_min, series_max, num in Hlo, Hhi.
    injection Hlo as Hlo. injection Hhi as Hhi.
    assert (Ilo : int64_entry lo).
    { rewrite <- Hlo. eapply Forall_forall; [exact Hok|apply fold_min_in]. }
    assert (Ihi : int64_entry hi).
    { rewrite <- Hhi. eapply Forall_forall; [exact Hok|apply fold_max_in]. }
    destruct Ilo as (zl & -> & Rl). destruct Ihi as (zh & -> & Rh).
    rewrite !Qfloor_Z.
    assert (Hz : (zl <= zh)%Z) by (rewrite Zle_Qle; exact Hle).
    assert (D : inject_Z zh - inject_Z zl == inject_Z (zh - zl)).
    { unfold Z.sub. rewrite inject_Z_plus, inject_Z_opp. reflexivity. }
    eexists; split; [reflexivity|].
    split; [discriminate|]. split.
    + intros _ Hfit. rewrite D in Hfit. rewrite <- Zlt_Qlt in Hfit.
      rewrite wrap64_in_range by lia. split.
      * symmetry. exact D.
      * change 0 with (inject_Z 0). rewrite <- Zle_Qle. lia.
    + intros _ Hover. rewrite D in Hover. rewrite <- Zle_Qle in Hover.
      rewrite wrap64_above_range by lia. split.
      * rewrite D. unfold Z.sub at 1.
        rewrite inject_Z_plus, inject_Z_opp. reflexivity.
      * change 0 with (inject_Z 0). rewrite <- Zlt_Qlt. lia.
  - eexists; split; [reflexivity|].
    split; [reflexivity|]. split; discriminate.
Qed.

Lemma column_extent_witness :
  exists e,
    extent int64 (map col_X wide_points) = num e /\
    (int64 = float64 ->
     e == 9000000000000000000 - (-9000000000000000000)) /\
    (int64 = int64 ->
     9000000000000000000 - (-9000000000000000000) < inject_Z (2 ^ 63) ->
     e == 9000000000000000000 - (-9000000000000000000) /\ 0 <= e) /\
    (int64 = int64 ->
     inject_Z (2 ^ 63) <= 9000000000000000000 - (-9000000000000000000) ->
     e == 9000000000000000000 - (-9000000000000000000) - inject_Z (2 ^ 64)
     /\ e < 0).
Proof.
  apply (column_extent int64 (map col_X wide_points)
           (-9000000000000000000) 9000000000000000000).
  - reflexivity.
  - reflexivity.
  - simpl. repeat constructor; eexists; (split; [reflexivity|lia]).
Defined.

(** ** The contacts the page starts with *)

(** X18.  The contacts the page starts with on a non-empty frame, from the
    Z extent [e] as the script computes it.  When [e] is not negative they
    are in order and the page opens without the inversion warning; when
    [e] is negative (an [int64] depth column whose range wraps around) they
    are inverted and the page opens with the warning.  When [e] is the true
    range [max_z - min_z] both lie within the depth range, the shallowest
    point starts as Gas Cap and the deepest as Aquifer if the depths are
    not all equal, and every point starts as Oil Zone if they are. *)
Theorem default_contacts_are_ordered
  (dt : dtypes) (df : dataframe) (lo hi e : Q) :
  min_z df = num lo -> max_z df = num hi ->
  extent (dtype_Z dt) (map col_Z df) = num e ->
  exists goc woc : Q,
    default_goc dt df = num goc /\ default_woc dt df = num woc /\
    (0 <= e -> goc <= woc /\ sidebar_trace df goc woc = []) /\
    (e < 0 -> woc < goc /\
              sidebar_trace df goc woc = [st_warning_goc_woc]) /\
    (e == hi - lo ->
     lo <= goc /\ woc <= hi /\
     (lo < hi ->
      fluid_of goc woc lo = Gas_Cap /\ fluid_of goc woc hi = Aquifer) /\
     (lo == hi -> Forall (fun f => f = Oil_Zone) (classify df goc woc))).
Proof.
  intros Hlo Hhi He.
  pose proof (series_extent_ordered _ _ _ Hlo Hhi) as Hle.
  exists (lo + e * (3 # 10)), (lo + e * (7 # 10)).
  split; [unfold default_goc; rewrite Hlo, He; reflexivity|].
  split; [unfold default_woc; rewrite Hlo, He; reflexivity|].
  assert (Hne : df <> []) by (intros ->; discriminate Hlo).
  split; [|split].
  - intro H0. assert (G : lo + e * (3 # 10) <= lo + e * (7 # 10)) by lra.
    split; [exact G|].
    unfold sidebar_trace. destruct df; [congruence|].
    replace (Qltb (lo + e * (7 # 10)) (lo + e * (3 # 10))) with false;
      [reflexivity|].
    symmetry. apply Qltb_ge. exact G.
  - intro H0. assert (G : lo + e * (7 # 10) < lo + e * (3 # 10)) by lra.
    split; [exact G|].
    unfold sidebar_trace. destruct df; [congruence|].
    apply Qltb_lt in G. rewrite G. reflexivity.
  - intro Ee.
    split; [lra|]. split; [lra|]. split.
    + intro Hlt. split.
      * apply fluid_of_gas. lra.
      * apply fluid_of_aquifer; lra.
    + intro Heq. unfold classify. apply Forall_map, Forall_forall.
      intros r Hr.
      assert (B : lo <= col_Z r <= hi).
      { apply (series_bounds (map col_Z df) lo hi Hlo Hhi).
        apply in_map. exact Hr. }
      destruct B as [B1 B2]. apply fluid_of_oil; lra.
Qed.

Lemma default_contacts_witness :
  exists goc woc : Q,
    default_goc int_dtypes demo_points = num goc /\
    default_woc int_dtypes demo_points = num woc /\
    (0 <= 300 -> goc <= woc /\ sidebar_trace demo_points goc woc = []) /\
    (300 < 0 -> woc < goc /\
                sidebar_trace demo_points goc woc = [st_warning_goc_woc]) /\
    (300 == 1300 - 1000 ->
     1000 <= goc /\ woc <= 1300 /\
     (1000 < 1300 ->
      fluid_of goc woc 1000 = Gas_Cap /\ fluid_of goc woc 1300 = Aquifer) /\
     (1000 == 1300 ->
      Forall (fun f => f = Oil_Zone) (classify demo_points goc woc))).
Proof.
  apply (default_contacts_are_ordered int_dtypes demo_points 1000 1300 300);
    reflexivity.
Defined.

(** ** A flat surface *)

Lemma nansum_flat_constant (c d : Q) (l : list float) :
  Forall (fun v => v = num d) l -> d <= c ->
  nansum_flat (map (thickness c) l)
  == inject_Z (Z.of_nat (length l)) * (c - d).
Proof.
  intros H Hd. induction H as [|v l -> _ IH].
  - simpl. ring.
  - cbn [length map nansum_flat fold_right]. fold (nansum_flat (map (thickness c) l)).
    rewrite IH, thickness_contribution. unfold num.
    rewrite Q.max_r by lra.
    rewrite Nat2Z.inj_succ. unfold Z.succ. rewrite inject_Z_plus.
    change (inject_Z 1) with 1. ring.
Qed.

Lemma flat_surface_nodes (d : Q) :
  Forall (fun v => v = num d) (concat (flat_surface d)) /\
  node_count (flat_surface d) = (nx * ny)%nat.
Proof.
  unfold flat_surface, node_count. split.
  - apply Forall_forall. intros v Hv. apply in_concat in Hv.
    destruct Hv as (row & Hrow & Hv).
    apply repeat_spec in Hrow. subst row.
    apply repeat_spec in Hv. exact Hv.
  - generalize nx, ny. intros c r. induction r as [|r IH].
    + simpl. lia.
    + cbn [repeat concat]. rewrite length_app, repeat_length, IH. lia.
Qed.

(** X19.  On a surface that is defined at all [nx * ny = 10000] nodes with
    one depth [d] not below WOC the total reservoir volume is
    [(WOC - d) * ex * ey * 10000 / 9801], where [ex] and [ey] are the X and
    Y extents as the script computes them ([x_max - x_min] and
    [y_max - y_min] unless an [int64] column wraps around): each of the
    100 x 100 nodes is counted with a cell of [1/99] of the extent per
    axis, so the sum exceeds thickness times the area of the bounding box
    by the factor [(100/99)^2]. *)
Theorem flat_surface_total_volume
  (dt : dtypes) (df : dataframe) (grid_z : grid float)
  (woc_input d ex ey : Q) :
  extent (dtype_X dt) (map col_X df) = num ex ->
  extent (dtype_Y dt) (map col_Y df) = num ey ->
  Forall (fun v => v = num d) (concat grid_z) ->
  node_count grid_z = (nx * ny)%nat ->
  d <= woc_input ->
  exists totalReservoir : Q,
    vol_total_res (cell_area dt df) grid_z woc_input = num totalReservoir /\
    totalReservoir == (woc_input - d) * (ex * ey) * (10000 # 9801).
Proof.
  intros Hex Hey Hflat Hcount Hd.
  rewrite (cell_area_of_extents dt df ex ey Hex Hey).
  unfold vol_total_res, thick_above_woc. simpl fmul.
  eexists; split; [reflexivity|].
  rewrite nansum_thick_above.
  rewrite (nansum_flat_constant woc_input d _ Hflat Hd).
  unfold node_count in Hcount. rewrite Hcount.
  change (inject_Z (Z.of_nat (nx * ny))) with 10000.
  field.
Qed.

Lemma flat_surface_total_volume_witness :
  exists totalReservoir : Q,
    vol_total_res (cell_area int_dtypes demo_points) (flat_surface 1000) 1100
    = num totalReservoir /\
    totalReservoir == (1100 - 1000) * (200 * 200) * (10000 # 9801).
Proof.
  apply (flat_surface_total_volume
           int_dtypes demo_points (flat_surface 1000) 1100 1000 200 200).
  - reflexivity.
  - reflexivity.
  - apply flat_surface_nodes.
  - apply flat_surface_nodes.
  - discriminate.
Defined.
